(** * Etch performance benchmarks (Python reference scripts)

    A shallow embedding of the eleven scripts under [src/performance]
    and the properties their specification states about them.

    Python integers are unbounded, so they are [Z]; [//] and [%] are the
    floor division and the modulo of [Z], which agree with Python's on
    every non-zero divisor, and raise [ZeroDivisionError] on zero.
    Exceptions are explicit ([outcome]); the pseudo-random generator and
    standard output are threaded through a small state monad ([M]). *)

From Stdlib Require Import ZArith Znumtheory Lia List String Ascii.
From Stdlib Require Import Decimal DecimalString DecimalPos.
From Equations Require Import Equations.
From Equations.Prop Require Import Logic.
From stdpp Require Import base list strings.

Local Open Scope Z_scope.

(** ** Exceptions *)

Inductive exn : Type :=
  | ZeroDivisionError
  | IndexError
  | TypeError
  | AttributeError.

Inductive outcome (A : Type) : Type :=
  | Ret (a : A)
  | Raise (e : exn).
Arguments Ret {A} a.
Arguments Raise {A} e.

Definition obind {A B : Type} (m : outcome A) (k : A -> outcome B) : outcome B :=
  match m with
  | Ret a => k a
  | Raise e => Raise e
  end.

#[global] Instance outcome_ret : MRet outcome := fun A a => Ret a.
#[global] Instance outcome_bind : MBind outcome := fun A B k m => obind m k.

(** ** Integer operators that can raise *)

(** [a // b] *)
Definition py_floordiv (a b : Z) : outcome Z :=
  if b =? 0 then Raise ZeroDivisionError else Ret (a / b).

(** [a % b] *)
Definition py_mod (a b : Z) : outcome Z :=
  if b =? 0 then Raise ZeroDivisionError else Ret (a mod b).

(** ** Python values that the scripts put in tuples *)

Inductive pyval : Type :=
  | VInt (z : Z)
  | VStr (s : string).

(** [x + y] on a value whose dynamic type is not known statically. *)
Definition py_add_int (x : Z) (v : pyval) : outcome Z :=
  match v with
  | VInt z => Ret (x + z)
  | VStr _ => Raise TypeError
  end.

(** ** result_operations.py *)

Module ResultOperations.

(** def divide(a, b) *)
Definition divide (a b : Z) : outcome (string * pyval) :=
  if b =? 0 then Ret ("error"%string, VStr "Division by zero")
  else q ← py_floordiv a b; Ret ("ok"%string, VInt q).

(** The body of the loop after the two draws (lines 18 to 23):
    the pair is [(success_sum, error_count)]. *)
Definition consume (a b : Z) (acc : Z * Z) : outcome (Z * Z) :=
  let '(success_sum, error_count) := acc in
  result ← divide a b;
  if String.eqb (fst result) "ok" then
    success_sum' ← py_add_int success_sum (snd result);
    Ret (success_sum', error_count)
  else
    Ret (success_sum, error_count + 1).

End ResultOperations.

(** ** math_intensive.py: the two helpers *)

Module MathIntensive.

(** The [or] of line 14 evaluates its second operand only when the
    first is false. *)
Definition divides_either (n i : Z) : outcome bool :=
  r1 ← py_mod n i;
  if r1 =? 0 then Ret true
  else r2 ← py_mod n (i + 2); Ret (r2 =? 0).

(** The [while] loop of [is_prime], entered with the current [i]. *)
Equations? is_prime_loop (n i : Z) : outcome Z by wf (Z.to_nat (n - i + 1)) lt :=
is_prime_loop n i with Z_le_dec (i * i) n := {
  | right _ => Ret 1
  | left Hle =>
      d ← divides_either n i;
      if (d : bool) then Ret 0 else is_prime_loop n (i + 6) }.
Proof. nia. Qed.

(** def is_prime(n) *)
Definition is_prime (n : Z) : outcome Z :=
  if n <=? 1 then Ret 0
  else if n <=? 3 then Ret 1
  else
    r2 ← py_mod n 2;
    if r2 =? 0 then Ret 0
    else
      r3 ← py_mod n 3;
      if r3 =? 0 then Ret 0
      else is_prime_loop n 5.

(** def gcd(a, b) *)
Equations? gcd (a b : Z) : outcome Z by wf (Z.abs_nat b) lt :=
gcd a b with Z.eq_dec b 0 := {
  | left _ => Ret a
  | right Hb with inspect (py_mod a b) := {
      | exist _ (Ret r) Hr => gcd b r
      | exist _ (Raise e) _ => Raise e } }.
Proof.
  unfold py_mod in Hr. destruct (Z.eqb_spec b 0); [congruence|].
  injection Hr as <-.
  pose proof (Z.mod_bound_or a b Hb). lia.
Qed.

End MathIntensive.

(** ** function_calls.py: the three helpers *)

Module FunctionCalls.

(** def fibonacci(n) *)
Equations? fibonacci (n : Z) : outcome Z by wf (Z.to_nat n) lt :=
fibonacci n with Z_le_dec n 1 := {
  | left _ => Ret n
  | right Hgt with Z_gt_dec n 46 := {
      | left _ => Ret 0
      | right Hle =>
          fib1 ← fibonacci (n - 1);
          fib2 ← fibonacci (n - 2);
          m1 ← py_mod fib1 1000000;
          m2 ← py_mod fib2 1000000;
          Ret (m1 + m2) } }.
Proof. all: lia. Qed.

(** The call graph that the body of [fibonacci] induces:
    [fib_call m n] when evaluating [fibonacci(n)] calls [fibonacci(m)]. *)
Definition fib_call (m n : Z) : Prop :=
  ~ n <= 1 /\ ~ n > 46 /\ (m = n - 1 \/ m = n - 2).

(** def simple_math(a, b) *)
Definition simple_math (a b : Z) : Z := a * b + a - b.

End FunctionCalls.

(** ** Sequences: indexing, item assignment, slices *)

(** [l[i]]: a negative index counts from the end. *)
Definition py_index {A : Type} (l : list A) (i : Z) : outcome A :=
  let n := Z.of_nat (length l) in
  let j := if i <? 0 then i + n else i in
  if (0 <=? j) && (j <? n) then
    match l !! Z.to_nat j with
    | Some x => Ret x
    | None => Raise IndexError
    end
  else Raise IndexError.

(** [l[i] = x] *)
Definition py_setitem {A : Type} (l : list A) (i : Z) (x : A) : outcome (list A) :=
  let n := Z.of_nat (length l) in
  let j := if i <? 0 then i + n else i in
  if (0 <=? j) && (j <? n) then Ret (<[Z.to_nat j := x]> l)
  else Raise IndexError.

(** [l[lo:hi]], [l[:hi]] and [l[lo:]] with literal bounds that are
    not negative, the only form the scripts use. *)
Definition py_slice {A : Type} (l : list A) (lo hi : nat) : list A :=
  take (hi - lo) (drop lo l).
Definition py_slice_to {A : Type} (l : list A) (hi : nat) : list A := take hi l.
Definition py_slice_from {A : Type} (l : list A) (lo : nat) : list A := drop lo l.

(** [len(l)] *)
Definition len {A : Type} (l : list A) : Z := Z.of_nat (length l).

(** [str(n)] for an integer and [len(s)] for a string. *)
Definition str (n : Z) : string := NilZero.string_of_int (Z.to_int n).
Definition strlen (s : string) : Z := Z.of_nat (String.length s).

(** ** The pseudo-random generator

    Python's [random] module is not part of the repository.  The scripts
    rely on two of its operations: [random.seed(x)], which replaces the
    state of the generator by one that depends on [x] only, and
    [random.randint(lo, hi)], which returns an integer of the closed
    range and advances the state. *)

Record Generator : Type := {
  rng : Type;
  seed : Z -> rng;
  randint : Z -> Z -> rng -> Z * rng
}.

(** The contract of [random.randint]: the draw lies in the closed range. *)
Definition in_range (G : Generator) : Prop :=
  forall lo hi g, lo <= hi -> lo <= fst (randint G lo hi g) <= hi.

(** ** The state of a running script *)

(** The one class of the repository, [Counter], has one field. *)
Record Counter : Type := { value : Z }.

Definition loc := nat.

Record world (G : Generator) : Type := {
  gen : rng G;              (* state of the [random] module *)
  stdout : list string;     (* lines printed so far *)
  heap : list Counter       (* objects allocated so far, by address *)
}.
Arguments gen {G} w.
Arguments stdout {G} w.
Arguments heap {G} w.

Definition M (G : Generator) (A : Type) : Type := world G -> outcome A * world G.

Section Monad.
Context {G : Generator}.

Definition mret {A : Type} (a : A) : M G A := fun w => (Ret a, w).

Definition mbind' {A B : Type} (m : M G A) (k : A -> M G B) : M G B :=
  fun w =>
    match m w with
    | (Ret a, w') => k a w'
    | (Raise e, w') => (Raise e, w')
    end.

(** A computation that touches neither generator, output nor heap. *)
Definition lift {A : Type} (o : outcome A) : M G A := fun w => (o, w).

(** [random.seed(x)] *)
Definition random_seed (x : Z) : M G unit :=
  fun w => (Ret tt, {| gen := seed G x; stdout := stdout w; heap := heap w |}).

(** [random.randint(lo, hi)] *)
Definition random_randint (lo hi : Z) : M G Z :=
  fun w =>
    let '(x, g') := randint G lo hi (gen w) in
    (Ret x, {| gen := g'; stdout := stdout w; heap := heap w |}).

(** [print(s)] for a string and [print(n)] for an integer. *)
Definition print_str (s : string) : M G unit :=
  fun w => (Ret tt, {| gen := gen w; stdout := stdout w ++ [s]; heap := heap w |}).
Definition print_int (n : Z) : M G unit := print_str (str n).

(** [Counter(v)]: a new object, returned by reference. *)
Definition new_Counter (v : Z) : M G loc :=
  fun w => (Ret (length (heap w)),
            {| gen := gen w; stdout := stdout w; heap := heap w ++ [{| value := v |}] |}).

(** [c.value]; an address that holds no object cannot arise from the
    scripts, and is an error here. *)
Definition get_value (c : loc) : M G Z :=
  fun w =>
    match heap w !! c with
    | Some o => (Ret (value o), w)
    | None => (Raise AttributeError, w)
    end.

(** [c.value = v] *)
Definition set_value (c : loc) (v : Z) : M G unit :=
  fun w =>
    match heap w !! c with
    | Some _ =>
        (Ret tt, {| gen := gen w; stdout := stdout w;
                    heap := <[c := {| value := v |}]> (heap w) |})
    | None => (Raise AttributeError, w)
    end.

(** [for i in range(lo, lo + n)] with the variables that the body
    assigns collected in [s]. *)
Fixpoint for_range {S : Type} (lo : Z) (n : nat) (body : Z -> S -> M G S) (s : S)
  : M G S :=
  match n with
  | O => mret s
  | Datatypes.S n' => mbind' (body lo s) (for_range (lo + 1) n' body)
  end.

(** [for i in range(lo, hi)] *)
Definition range_loop {S : Type} (lo hi : Z) (body : Z -> S -> M G S) (s : S)
  : M G S :=
  for_range lo (Z.to_nat (hi - lo)) body s.

End Monad.

#[global] Instance M_ret {G : Generator} : MRet (M G) := fun A a => mret a.
#[global] Instance M_bind {G : Generator} : MBind (M G) := fun A B k m => mbind' m k.

(** A run of a script: the interpreter starts with whatever state the
    [random] module got at import time, an empty output and no object. *)
Definition run {G : Generator} (script : M G unit) (g0 : rng G)
  : outcome unit * world G :=
  script {| gen := g0; stdout := []; heap := [] |}.

(** What a run printed. *)
Definition printed {G : Generator} (script : M G unit) (g0 : rng G) : list string :=
  stdout (snd (run script g0)).

(** Whether a run ended without an exception. *)
Definition exits_normally {G : Generator} (script : M G unit) (g0 : rng G) : Prop :=
  fst (run script g0) = Ret tt.

(** ** The eleven scripts

    Each [main] is the function of that name; every script calls it
    once, so a run of the script is a run of [main]. *)

Module ArithmeticOperations.
Section Script.
Context {G : Generator}.

Definition body (_ : Z) (result : Z) : M G Z :=
  a ← random_randint 1 100;
  b ← random_randint 1 100;
  let sum := a + b in
  let diff := a - b in
  let prod := a * b in
  r ← lift (py_mod b 10);
  quotient ← lift (py_floordiv a (r + 1));
  let result := result + sum in
  let result := result + diff in
  let result := result + prod in
  let result := result + quotient in
  mret result.

Definition main : M G unit :=
  random_seed 42;;
  result ← range_loop 0 100000 body 0;
  print_int result.

End Script.
End ArithmeticOperations.

Module ArrayOperations.
Section Script.
Context {G : Generator}.

(** The loop assigns [arr] and [sum_val]. *)
Definition body (i : Z) (s : list Z * Z) : M G (list Z * Z) :=
  let '(arr, sum_val) := s in
  idx ← random_randint 0 9;
  arr_val ← lift (py_index arr idx);
  let sum_val := sum_val + arr_val in
  bounded_sum ← lift (py_mod sum_val 100000);
  bounded_arr ← lift (py_mod arr_val 100000);
  new_val ← lift (py_mod (bounded_sum + bounded_arr) 100000);
  arr ← lift (py_setitem arr idx new_val);
  r ← lift (py_mod i 1000);
  if r =? 0 then
    bounded ← lift (py_mod sum_val 100000);
    sum_val ← lift (py_mod (bounded + 10) 100000);
    mret (arr, sum_val)
  else mret (arr, sum_val).

Definition print_item (arr : list Z) (i : Z) (_ : unit) : M G unit :=
  x ← lift (py_index arr i);
  print_int x.

Definition main : M G unit :=
  random_seed 42;;
  let arr := [0; 1; 2; 3; 4; 5; 6; 7; 8; 9] in
  let sum_val := 0 in
  s ← range_loop 0 50000 body (arr, sum_val);
  let '(arr, sum_val) := s in
  print_int sum_val;;
  range_loop 0 (len arr) (print_item arr) tt.

End Script.
End ArrayOperations.

Module FunctionCallsScript.
Section Script.
Context {G : Generator}.
Import FunctionCalls.

(** def array_sum(arr) *)
Definition array_sum (arr : list Z) : M G Z :=
  range_loop 0 (len arr)
    (fun i sum_val => x ← lift (py_index arr i); mret (sum_val + x)) 0.

Definition body (i : Z) (res : Z) : M G Z :=
  a ← random_randint 1 100;
  b ← random_randint 1 100;
  let res := res + simple_math a b in
  let arr := [a; b; a + b; a - b; a * 2] in
  t ← array_sum arr;
  u ← lift (py_mod t 10);
  let res := res + u in
  r ← lift (py_mod i 1000);
  if r =? 0 then
    k ← lift (py_mod a 10);
    f ← lift (fibonacci k);
    mret (res + f)
  else mret res.

Definition main : M G unit :=
  random_seed 42;;
  res ← range_loop 0 10000 body 0;
  print_int res.

End Script.
End FunctionCallsScript.

Module MathIntensiveScript.
Section Script.
Context {G : Generator}.
Import MathIntensive.

(** The loop assigns [prime_count] and [gcd_sum]. *)
Definition body (i : Z) (s : Z * Z) : M G (Z * Z) :=
  let '(prime_count, gcd_sum) := s in
  p ← lift (is_prime i);
  let prime_count := if p =? 1 then prime_count + 1 else prime_count in
  a ← random_randint 1 1000;
  b ← random_randint 1 1000;
  g ← lift (gcd a b);
  let gcd_sum := gcd_sum + g in
  mod_result ← lift (py_mod (i * i + a * b) 1000);
  let gcd_sum := gcd_sum + mod_result in
  mret (prime_count, gcd_sum).

Definition main : M G unit :=
  random_seed 42;;
  s ← range_loop 1 5000 body (0, 0);
  let '(prime_count, gcd_sum) := s in
  print_int prime_count;;
  print_int gcd_sum.

End Script.
End MathIntensiveScript.

Module MemoryAllocation.
Section Script.
Context {G : Generator}.

(** def create_array(size) *)
Definition create_array (size : Z) : M G (list Z) :=
  let arr := replicate (Z.to_nat size) 0 in
  range_loop 0 size (fun i arr => lift (py_setitem arr i i)) arr.

Definition body (_ : Z) (total_length : Z) : M G Z :=
  size ← random_randint 10 50;
  arr ← create_array size;
  let bounded_len := total_length in
  let bounded_arr_len := len arr in
  let total_length := bounded_len + bounded_arr_len in
  let temp1 := [1; 2; 3; 4; 5] in
  let temp2 := temp1 ++ py_slice arr 0 5 in
  let bounded_len2 := total_length in
  let bounded_temp_len := len temp2 in
  let total_length := bounded_len2 + bounded_temp_len in
  mret total_length.

Definition main : M G unit :=
  random_seed 42;;
  total_length ← range_loop 0 1000 body 0;
  print_int total_length.

End Script.
End MemoryAllocation.

Module NestedLoops.
Section Script.
Context {G : Generator}.

Definition inner (i j : Z) (sum_val : Z) : M G Z :=
  let sum_val := sum_val + i * j in
  if sum_val >? 1000000 then lift (py_mod sum_val 1000000)
  else mret sum_val.

Definition outer (i : Z) (sum_val : Z) : M G Z :=
  range_loop 0 500 (inner i) sum_val.

Definition main : M G unit :=
  sum_val ← range_loop 0 1000 outer 0;
  print_int sum_val.

End Script.
End NestedLoops.

Module OptionOperations.
Section Script.
Context {G : Generator}.

(** The loop assigns [success_count] and [none_count]. *)
Definition body (_ : Z) (s : Z * Z) : M G (Z * Z) :=
  let '(success_count, none_count) := s in
  val ← random_randint 0 100;
  let opt := if val >? 50 then Some val else None in
  match opt with
  | Some v => mret (success_count + v, none_count)
  | None => mret (success_count, none_count + 1)
  end.

Definition main : M G unit :=
  random_seed 42;;
  s ← range_loop 0 50000 body (0, 0);
  let '(success_count, none_count) := s in
  print_int success_count;;
  print_int none_count.

End Script.
End OptionOperations.

Module RefOperations.
Section Script.
Context {G : Generator}.

(** def increment(counter) *)
Definition increment (counter : loc) : M G unit :=
  v ← get_value counter;
  set_value counter (v + 1).

Definition body (_ : Z) (total : Z) : M G Z :=
  counter ← new_Counter 0;
  range_loop 0 10 (fun _ _ => increment counter) tt;;
  v ← get_value counter;
  mret (total + v).

Definition main : M G unit :=
  random_seed 42;;
  total ← range_loop 0 10000 body 0;
  print_int total.

End Script.
End RefOperations.

Module ResultOperationsScript.
Section Script.
Context {G : Generator}.
Import ResultOperations.

(** The loop assigns [success_sum] and [error_count]. *)
Definition body (_ : Z) (s : Z * Z) : M G (Z * Z) :=
  a ← random_randint 1 100;
  b ← random_randint 0 10;
  lift (consume a b s).

Definition main : M G unit :=
  random_seed 42;;
  s ← range_loop 0 50000 body (0, 0);
  let '(success_sum, error_count) := s in
  print_int success_sum;;
  print_int error_count.

End Script.
End ResultOperationsScript.

Module StringOperations.
Section Script.
Context {G : Generator}.

(** The loop assigns [res] and [count]. *)
Definition body (_ : Z) (s : string * Z) : M G (string * Z) :=
  let '(res, count) := s in
  num ← random_randint 0 9;
  let str_num := str num in
  let res := ((res +:+ str_num) +:+ ",")%string in
  let count := count + strlen res in
  mret (res, count).

(** This script does not call [random.seed]. *)
Definition main : M G unit :=
  s ← range_loop 0 5000 body (EmptyString, 0);
  let '(res, count) := s in
  print_int count;;
  print_str res;;
  print_int (strlen res).

End Script.
End StringOperations.

Module TupleOperations.
Section Script.
Context {G : Generator}.

Definition iterations : Z := 10000.

(** Test 1: tuple creation *)
Definition body1 (_ : Z) (sum1 : Z) : M G Z :=
  let t := [1; 2; 3; 4; 5] in
  x ← lift (py_index t 0);
  mret (sum1 + x).

(** Test 2: tuple access *)
Definition body2 (base : list Z) (_ : Z) (sum2 : Z) : M G Z :=
  a ← lift (py_index base 0);
  b ← lift (py_index base 3);
  c ← lift (py_index base 7);
  d ← lift (py_index base 9);
  mret (sum2 + a + b + c + d).

(** Test 3: tuple slicing *)
Definition body3 (source : list Z) (_ : Z) (sum3 : Z) : M G Z :=
  let s1 := py_slice source 2 5 in
  let s2 := py_slice_to source 3 in
  let s3 := py_slice_from source 7 in
  a ← lift (py_index s1 0);
  b ← lift (py_index s2 0);
  c ← lift (py_index s3 0);
  mret (sum3 + a + b + c).

(** Test 4: tuple concatenation *)
Definition body4 (left right : list Z) (_ : Z) (sum4 : Z) : M G Z :=
  let combined := left ++ right in
  a ← lift (py_index combined 0);
  b ← lift (py_index combined 9);
  mret (sum4 + a + b).

(** Test 5: mixed *)
Definition body5 (t1 t2 : list Z) (_ : Z) (sum5 : Z) : M G Z :=
  let joined := t1 ++ t2 in
  let slice_result := py_slice joined 1 5 in
  a ← lift (py_index slice_result 0);
  b ← lift (py_index slice_result 3);
  mret (sum5 + a + b).

Definition main : M G unit :=
  sum1 ← range_loop 0 iterations body1 0;
  print_int sum1;;
  let base := [10; 20; 30; 40; 50; 60; 70; 80; 90; 100] in
  sum2 ← range_loop 0 iterations (body2 base) 0;
  print_int sum2;;
  let source := [1; 2; 3; 4; 5; 6; 7; 8; 9; 10] in
  sum3 ← range_loop 0 iterations (body3 source) 0;
  print_int sum3;;
  let left := [1; 2; 3; 4; 5] in
  let right := [6; 7; 8; 9; 10] in
  sum4 ← range_loop 0 iterations (body4 left right) 0;
  print_int sum4;;
  let t1 := [1; 2; 3] in
  let t2 := [4; 5; 6] in
  sum5 ← range_loop 0 iterations (body5 t1 t2) 0;
  print_int sum5;;
  let total := sum1 + sum2 + sum3 + sum4 + sum5 in
  print_str ("Total checksum: " +:+ str total).

End Script.
End TupleOperations.

(** ** The scripts of the repository, by file name *)

Inductive script_name : Type :=
  | arithmetic_operations
  | array_operations
  | function_calls
  | math_intensive
  | memory_allocation
  | nested_loops
  | option_operations
  | ref_operations
  | result_operations
  | string_operations
  | tuple_operations.

Definition all_scripts : list script_name :=
  [arithmetic_operations; array_operations; function_calls; math_intensive;
   memory_allocation; nested_loops; option_operations; ref_operations;
   result_operations; string_operations; tuple_operations].

Definition script {G : Generator} (s : script_name) : M G unit :=
  match s with
  | arithmetic_operations => ArithmeticOperations.main
  | array_operations => ArrayOperations.main
  | function_calls => FunctionCallsScript.main
  | math_intensive => MathIntensiveScript.main
  | memory_allocation => MemoryAllocation.main
  | nested_loops => NestedLoops.main
  | option_operations => OptionOperations.main
  | ref_operations => RefOperations.main
  | result_operations => ResultOperationsScript.main
  | string_operations => StringOperations.main
  | tuple_operations => TupleOperations.main
  end.

(** Whether the script's text calls [random.seed(42)] before its loop. *)
Definition seeds_generator (s : script_name) : bool :=
  match s with
  | nested_loops | string_operations | tuple_operations => false
  | _ => true
  end.

(** ** A concrete generator

    A linear congruential generator on [Z], small enough to run the
    scripts inside Rocq.  It stands for one admissible behaviour of
    the [random] module. *)

Module Lcg.

Definition next (g : Z) : Z := (1103515245 * g + 12345) mod 2147483648.

Definition draw (lo hi : Z) (g : Z) : Z * Z :=
  let g' := next g in
  (if lo <=? hi then lo + (g' / 65536) mod (hi - lo + 1) else lo, g').

Definition generator : Generator :=
  {| rng := Z; seed := fun x => x; randint := draw |}.

End Lcg.

(** ** Vocabulary of the properties *)

(** A line of output is a plain integer when it is an optional minus
    sign followed by one or more decimal digits. *)
Definition is_digit (c : ascii) : bool :=
  let n := nat_of_ascii c in (48 <=? n)%nat && (n <=? 57)%nat.

Fixpoint all_digits (s : string) : bool :=
  match s with
  | EmptyString => true
  | String c s' => is_digit c && all_digits s'
  end.

Definition unsigned_integer (s : string) : bool :=
  match s with
  | EmptyString => false
  | String _ _ => all_digits s
  end.

Definition plain_integer (s : string) : bool :=
  match s with
  | String "-"%char s' => unsigned_integer s'
  | _ => unsigned_integer s
  end.

Definition only_integers (lines : list string) : bool := forallb plain_integer lines.

(** The candidate divisors that the loop of [is_prime], entered at [i],
    gets to test on [n]. *)
Definition candidate (n i j : Z) : Prop :=
  i <= j /\ (j - i) mod 6 = 0 /\ j * j <= n.

(** The main loop of each script, with the number of iterations [n] in
    the place of the literal of the source (100000, 50000, 10000, 4999,
    1000, 5000); the accumulators start as the script initialises them. *)
Definition arithmetic_loop {G : Generator} (n : Z) : M G Z :=
  range_loop 0 n ArithmeticOperations.body 0.
Definition array_loop {G : Generator} (n : Z) : M G (list Z * Z) :=
  range_loop 0 n ArrayOperations.body ([0; 1; 2; 3; 4; 5; 6; 7; 8; 9], 0).
Definition function_calls_loop {G : Generator} (n : Z) : M G Z :=
  range_loop 0 n FunctionCallsScript.body 0.
Definition math_intensive_loop {G : Generator} (n : Z) : M G (Z * Z) :=
  range_loop 1 (1 + n) MathIntensiveScript.body (0, 0).
Definition memory_allocation_loop {G : Generator} (n : Z) : M G Z :=
  range_loop 0 n MemoryAllocation.body 0.
Definition nested_loops_loop {G : Generator} (n : Z) : M G Z :=
  range_loop 0 n NestedLoops.outer 0.
Definition option_operations_loop {G : Generator} (n : Z) : M G (Z * Z) :=
  range_loop 0 n OptionOperations.body (0, 0).
Definition ref_operations_loop {G : Generator} (n : Z) : M G Z :=
  range_loop 0 n RefOperations.body 0.
Definition result_operations_loop {G : Generator} (n : Z) : M G (Z * Z) :=
  range_loop 0 n ResultOperationsScript.body (0, 0).
Definition string_operations_loop {G : Generator} (n : Z) : M G (string * Z) :=
  range_loop 0 n StringOperations.body (EmptyString, 0).





(** A script prints only integers when every line of every run is a
    plain integer; the scripts have one exception when exactly one of
    them prints something else. *)
Definition prints_only_integers (G : Generator) (s : script_name) : Prop :=
  forall g0 : rng G, only_integers (printed (script s) g0) = true.

Definition one_exception (G : Generator) : Prop :=
  exists s0, ~ prints_only_integers G s0 /\
             forall s, s <> s0 -> prints_only_integers G s.

(** The first character of the second line of an output. *)
Definition second_line_head (lines : list string) : option ascii :=
  String.get 0 (nth 1 lines EmptyString).

(** The sum of a list of integers. *)
Definition sum_Z (l : list Z) : Z := foldr Z.add 0 l.

(** The Fibonacci numbers: [fib_pair n] is the pair of the [n]-th and
    the next one. *)
Fixpoint fib_pair (n : nat) : Z * Z :=
  match n with
  | O => (0, 1)
  | Datatypes.S k => let '(a, b) := fib_pair k in (b, a + b)
  end.

Definition Fib (n : nat) : Z := fst (fib_pair n).

(** Whether [is_prime] answers 1, and how many of 1..n it answers 1 on. *)
Definition trial_prime (n : Z) : bool :=
  match MathIntensive.is_prime n with
  | Ret r => r =? 1
  | Raise _ => false
  end.

Fixpoint count_primes (n : nat) : Z :=
  match n with
  | O => 0
  | Datatypes.S k =>
      if trial_prime (Z.of_nat n) then count_primes k + 1 else count_primes k
  end.

(** The range of what array_operations stores. *)
Definition small (x : Z) : Prop := 0 <= x < 100000.

(** * Properties *)

(** ** The operators *)

Lemma py_mod_nonzero a b : b <> 0 -> py_mod a b = Ret (a mod b).
Proof. intros Hb. unfold py_mod. destruct (Z.eqb_spec b 0); [contradiction|reflexivity]. Qed.

Lemma py_floordiv_nonzero a b : b <> 0 -> py_floordiv a b = Ret (a / b).
Proof. intros Hb. unfold py_floordiv. destruct (Z.eqb_spec b 0); [contradiction|reflexivity]. Qed.

Lemma py_mod_zero a : py_mod a 0 = Raise ZeroDivisionError.
Proof. reflexivity. Qed.

Lemma py_floordiv_zero a : py_floordiv a 0 = Raise ZeroDivisionError.
Proof. reflexivity. Qed.

Lemma obind_Ret {A B : Type} (a : A) (k : A -> outcome B) : (Ret a ≫= k) = k a.
Proof. reflexivity. Qed.

(** ** result_operations.py: [divide] and its caller *)

Section DivideFacts.
Import ResultOperations.

Lemma divide_zero a : divide a 0 = Ret ("error"%string, VStr "Division by zero").
Proof. reflexivity. Qed.

Lemma divide_nonzero a b : b <> 0 -> divide a b = Ret ("ok"%string, VInt (a / b)).
Proof.
  intros Hb. unfold divide. destruct (Z.eqb_spec b 0); [contradiction|].
  rewrite py_floordiv_nonzero by assumption. reflexivity.
Qed.

Lemma consume_zero a success_sum error_count :
  consume a 0 (success_sum, error_count) = Ret (success_sum, error_count + 1).
Proof. reflexivity. Qed.

Lemma consume_nonzero a b success_sum error_count :
  b <> 0 ->
  consume a b (success_sum, error_count) = Ret (success_sum + a / b, error_count).
Proof.
  intros Hb. unfold consume. rewrite divide_nonzero by assumption. reflexivity.
Qed.

(** C2: [divide(a, b)] returns the error pair exactly when [b] is zero
    and [("ok", a // b)] otherwise; the caller turns the error pair into
    one more [error_count] and the ok pair into the quotient added to
    [success_sum], and never raises. *)
Theorem divide_guard_and_caller (a b : Z) :
  (divide a b = Ret ("error"%string, VStr "Division by zero") <-> b = 0) /\
  divide a b = (if b =? 0 then Ret ("error"%string, VStr "Division by zero")
                else Ret ("ok"%string, VInt (a / b))) /\
  forall success_sum error_count : Z,
    consume a b (success_sum, error_count) =
      Ret (if b =? 0 then (success_sum, error_count + 1)
           else (success_sum + a / b, error_count)).
Proof.
  destruct (Z.eqb_spec b 0) as [->|Hb].
  - split; [|split].
    + split; [reflexivity|intros _; apply divide_zero].
    + apply divide_zero.
    + intros. apply consume_zero.
  - split; [|split].
    + split; [|contradiction].
      rewrite divide_nonzero by assumption. discriminate.
    + apply divide_nonzero; assumption.
    + intros. apply consume_nonzero; assumption.
Qed.

End DivideFacts.

(** ** math_intensive.py: [gcd] *)

Section GcdFacts.
Import MathIntensive.

Lemma gcd_zero a : gcd a 0 = Ret a.
Proof. simp gcd. reflexivity. Qed.

Lemma gcd_step a b : b <> 0 -> gcd a b = gcd b (a mod b).
Proof.
  intros Hb. funelim (gcd a b); try contradiction.
  - pose proof Hr as Hr'. rewrite py_mod_nonzero in Hr' by assumption.
    injection Hr' as <-. reflexivity.
  - match goal with He : py_mod _ _ = Raise _ |- _ =>
      pose proof He as He'; rewrite py_mod_nonzero in He' by assumption
    end.
    discriminate.
Qed.

(** The loop returns, whatever the signs of its arguments. *)
Lemma gcd_total a b : exists r, gcd a b = Ret r.
Proof.
  remember (Z.abs_nat b) as m eqn:Hm.
  revert a b Hm. induction m as [m IH] using lt_wf_ind. intros a b ->.
  destruct (Z.eq_dec b 0) as [->|Hb].
  - exists a. apply gcd_zero.
  - rewrite gcd_step by assumption.
    apply (IH (Z.abs_nat (a mod b))); [|reflexivity].
    pose proof (Z.mod_bound_or a b Hb). lia.
Qed.

Lemma gcd_nonneg a b : 0 <= a -> 0 <= b -> gcd a b = Ret (Z.gcd a b).
Proof.
  remember (Z.to_nat b) as m eqn:Hm.
  revert a b Hm. induction m as [m IH] using lt_wf_ind. intros a b -> Ha Hb.
  destruct (Z.eq_dec b 0) as [->|Hnz].
  - rewrite gcd_zero, Z.gcd_0_r, Z.abs_eq by assumption. reflexivity.
  - rewrite gcd_step by assumption.
    pose proof (Z.mod_pos_bound a b ltac:(lia)) as Hmod.
    assert (Hlt : (Z.to_nat (a mod b) < Z.to_nat b)%nat) by lia.
    rewrite (IH _ Hlt b (a mod b) eq_refl) by lia.
    f_equal. rewrite Z.gcd_comm, Z.gcd_mod by assumption. apply Z.gcd_comm.
Qed.

(** C5: on arguments that are at least 1, [gcd] returns, and what it
    returns is the greatest common divisor: a positive common divisor
    that every common divisor divides and none exceeds. *)
Theorem gcd_correct (a b : Z) :
  1 <= a -> 1 <= b ->
  exists g, gcd a b = Ret g /\ g = Z.gcd a b /\ 1 <= g /\
    (g | a) /\ (g | b) /\
    forall d, (d | a) -> (d | b) -> (d | g) /\ d <= g.
Proof.
  intros Ha Hb. exists (Z.gcd a b).
  split; [apply gcd_nonneg; lia|]. split; [reflexivity|].
  assert (Hpos : 1 <= Z.gcd a b).
  { pose proof (Z.gcd_nonneg a b).
    assert (Z.gcd a b <> 0) by (intros H0; apply Z.gcd_eq_0_l in H0; lia). lia. }
  split; [exact Hpos|].
  split; [apply Z.gcd_divide_l|]. split; [apply Z.gcd_divide_r|].
  intros d Hda Hdb.
  assert (Hdg : (d | Z.gcd a b)) by (apply Z.gcd_greatest; assumption).
  split; [exact Hdg|]. apply Z.divide_pos_le in Hdg; lia.
Qed.

Lemma gcd_correct_witness :
  exists g, gcd 12 18 = Ret g /\ g = Z.gcd 12 18 /\ 1 <= g /\
    (g | 12) /\ (g | 18) /\
    forall d, (d | 12) -> (d | 18) -> (d | g) /\ d <= g.
Proof. apply (gcd_correct 12 18); lia. Defined.

End GcdFacts.

(** ** function_calls.py: [fibonacci] *)

Section FibonacciFacts.
Import FunctionCalls.

Lemma fibonacci_low n : n <= 1 -> fibonacci n = Ret n.
Proof. intros Hn. funelim (fibonacci n); [reflexivity|lia|lia]. Qed.

Lemma fibonacci_high n : n > 46 -> fibonacci n = Ret 0.
Proof. intros Hn. funelim (fibonacci n); [lia|reflexivity|lia]. Qed.

Lemma fibonacci_rec n :
  2 <= n <= 46 ->
  fibonacci n =
    (fib1 ← fibonacci (n - 1);
     fib2 ← fibonacci (n - 2);
     m1 ← py_mod fib1 1000000;
     m2 ← py_mod fib2 1000000;
     Ret (m1 + m2)).
Proof. intros Hn. funelim (fibonacci n); [lia|lia|reflexivity]. Qed.

Lemma fib_call_range m n : fib_call m n -> 2 <= n <= 46 /\ 0 <= m < n.
Proof. unfold fib_call. lia. Qed.

Lemma fib_call_wf : well_founded fib_call.
Proof.
  apply (well_founded_lt_compat Z Z.to_nat).
  intros m n Hc. apply fib_call_range in Hc. lia.
Qed.

Lemma fibonacci_total n : exists v, fibonacci n = Ret v.
Proof.
  induction n as [n IH] using (well_founded_induction fib_call_wf).
  destruct (Z_le_dec n 1) as [Hlow|Hlow].
  { exists n. apply fibonacci_low. assumption. }
  destruct (Z_gt_dec n 46) as [Hhigh|Hhigh].
  { exists 0. apply fibonacci_high. assumption. }
  destruct (IH (n - 1)) as [v1 H1]. { unfold fib_call. lia. }
  destruct (IH (n - 2)) as [v2 H2]. { unfold fib_call. lia. }
  exists (v1 mod 1000000 + v2 mod 1000000).
  rewrite fibonacci_rec by lia. rewrite H1, H2. reflexivity.
Qed.

(** C6: [fibonacci] returns on every integer.  Its two guards are base
    cases; only arguments from 2 to 46 reach the recursive calls, which
    are on [n - 1] and [n - 2]; the call graph is well founded. *)
Theorem fibonacci_terminates :
  (forall n, exists v, fibonacci n = Ret v) /\
  (forall n, n <= 1 -> fibonacci n = Ret n) /\
  (forall n, n > 46 -> fibonacci n = Ret 0) /\
  (forall n, 2 <= n <= 46 ->
     fibonacci n =
       (fib1 ← fibonacci (n - 1);
        fib2 ← fibonacci (n - 2);
        m1 ← py_mod fib1 1000000;
        m2 ← py_mod fib2 1000000;
        Ret (m1 + m2))) /\
  (forall m n, fib_call m n -> 2 <= n <= 46 /\ (m = n - 1 \/ m = n - 2) /\ 0 <= m < n) /\
  well_founded fib_call.
Proof.
  split; [exact fibonacci_total|].
  split; [exact fibonacci_low|].
  split; [exact fibonacci_high|].
  split; [exact fibonacci_rec|].
  split; [|exact fib_call_wf].
  intros m n Hc. pose proof (fib_call_range m n Hc). unfold fib_call in Hc. lia.
Qed.

Example fibonacci_10 : fibonacci 10 = Ret 55.
Proof. reflexivity. Qed.

Example fibonacci_47 : fibonacci 47 = Ret 0.
Proof. reflexivity. Qed.

End FibonacciFacts.

(** ** math_intensive.py: [is_prime] *)

Section IsPrimeFacts.
Import MathIntensive.

Lemma is_prime_loop_exit n i : ~ i * i <= n -> is_prime_loop n i = Ret 1.
Proof. intros Hi. funelim (is_prime_loop n i); [contradiction|reflexivity]. Qed.

Lemma is_prime_loop_step n i :
  i * i <= n ->
  is_prime_loop n i =
    (d ← divides_either n i; if (d : bool) then Ret 0 else is_prime_loop n (i + 6)).
Proof. intros Hi. funelim (is_prime_loop n i); [reflexivity|contradiction]. Qed.

Lemma divides_either_pos n i :
  0 < i -> divides_either n i = Ret ((n mod i =? 0) || (n mod (i + 2) =? 0)).
Proof.
  intros Hi. unfold divides_either.
  rewrite (py_mod_nonzero n i), obind_Ret by lia.
  destruct (n mod i =? 0); [reflexivity|].
  rewrite (py_mod_nonzero n (i + 2)) by lia. reflexivity.
Qed.

Lemma is_prime_loop_spec n i :
  0 < i ->
  (is_prime_loop n i = Ret 1 /\
     forall j, candidate n i j -> n mod j <> 0 /\ n mod (j + 2) <> 0) \/
  (is_prime_loop n i = Ret 0 /\
     exists j, candidate n i j /\ (n mod j = 0 \/ n mod (j + 2) = 0)).
Proof.
  remember (Z.to_nat (n - i + 1)) as m eqn:Hm.
  revert i Hm. induction m as [m IH] using lt_wf_ind. intros i -> Hi.
  destruct (Z_le_dec (i * i) n) as [Hle|Hgt].
  - rewrite is_prime_loop_step, divides_either_pos, obind_Ret by assumption.
    destruct (n mod i =? 0) eqn:E1; simpl.
    { right. split; [reflexivity|]. exists i.
      split; [|left; lia].
      unfold candidate. rewrite Z.sub_diag. split; [lia|]. split; [reflexivity|lia]. }
    destruct (n mod (i + 2) =? 0) eqn:E2; simpl.
    { right. split; [reflexivity|]. exists i.
      split; [|right; lia].
      unfold candidate. rewrite Z.sub_diag. split; [lia|]. split; [reflexivity|lia]. }
    assert (Hlt : (Z.to_nat (n - (i + 6) + 1) < Z.to_nat (n - i + 1))%nat) by nia.
    destruct (IH _ Hlt (i + 6) eq_refl ltac:(lia)) as [[Hr Hall]|[Hr [j [Hc Hj]]]].
    + left. split; [exact Hr|].
      intros j [Hij [Hmod Hjj]].
      destruct (Z.eq_dec j i) as [->|Hne]; [lia|].
      apply Hall. unfold candidate.
      assert (Hdiv : (6 | j - i)) by (apply Z.mod_divide; [lia|assumption]).
      destruct Hdiv as [k Hk].
      split; [lia|]. split; [|assumption].
      replace (j - (i + 6)) with ((k - 1) * 6) by lia.
      apply Z.mod_mul. lia.
    + right. split; [exact Hr|]. exists j. split; [|exact Hj].
      destruct Hc as [Hij [Hmod Hjj]]. unfold candidate.
      split; [lia|]. split; [|assumption].
      assert (Hdiv : (6 | j - (i + 6))) by (apply Z.mod_divide; [lia|assumption]).
      destruct Hdiv as [k Hk].
      replace (j - i) with ((k + 1) * 6) by lia.
      apply Z.mod_mul. lia.
  - left. split; [apply is_prime_loop_exit; assumption|].
    intros j [Hij [_ Hjj]]. nia.
Qed.

End IsPrimeFacts.

Section IsPrimeCorrect.
Import MathIntensive.

Lemma is_prime_le_1 n : n <= 1 -> is_prime n = Ret 0.
Proof. intros Hn. unfold is_prime. destruct (Z.leb_spec n 1); [reflexivity|lia]. Qed.

Lemma is_prime_2_3 n : 2 <= n <= 3 -> is_prime n = Ret 1.
Proof.
  intros Hn. unfold is_prime.
  destruct (Z.leb_spec n 1); [lia|]. destruct (Z.leb_spec n 3); [reflexivity|lia].
Qed.

Lemma is_prime_gt_3 n :
  3 < n ->
  is_prime n =
    if (n mod 2 =? 0) || (n mod 3 =? 0) then Ret 0 else is_prime_loop n 5.
Proof.
  intros Hn. unfold is_prime.
  destruct (Z.leb_spec n 1); [lia|]. destruct (Z.leb_spec n 3); [lia|].
  rewrite (py_mod_nonzero n 2), obind_Ret by lia.
  destruct (n mod 2 =? 0); [reflexivity|].
  rewrite (py_mod_nonzero n 3), obind_Ret by lia.
  destruct (n mod 3 =? 0); reflexivity.
Qed.

Lemma Zprime_dec n : {Z.prime n} + {~ Z.prime n}.
Proof.
  destruct (prime_dec n) as [Hp|Hnp].
  - left. apply prime_alt. exact Hp.
  - right. intros Hp. apply Hnp, prime_alt. exact Hp.
Qed.

Lemma mod_zero_divide n d : d <> 0 -> n mod d = 0 -> (d | n).
Proof. intros Hd Hm. apply Z.mod_divide; assumption. Qed.

Lemma divide_mod_zero n d : d <> 0 -> (d | n) -> n mod d = 0.
Proof. intros Hd Hm. apply Z.mod_divide; assumption. Qed.

Lemma prime_positive_divisor n d : Z.prime n -> 1 < d -> (d | n) -> d = n.
Proof.
  intros Hp Hd Hdiv. pose proof (Z.prime_ge_2 n Hp).
  destruct (Z.divide_prime_r d n Hp Hdiv) as [?|[?|[?|?]]]; lia.
Qed.

(** A composite number has a divisor that is at most its square root. *)
Lemma small_divisor n :
  1 < n -> ~ Z.prime n -> exists d, 1 < d /\ d * d <= n /\ (d | n).
Proof.
  intros Hn Hnp.
  assert (Hnp' : ~ prime n) by (intros Hp; apply Hnp, prime_alt; exact Hp).
  destruct (not_prime_divide n Hn Hnp') as [d [Hd [q Hq]]].
  destruct (Z_le_dec (d * d) n) as [Hle|Hgt].
  - exists d. split; [lia|]. split; [assumption|]. exists q. assumption.
  - exists q. split; [nia|]. split; [nia|]. exists d. lia.
Qed.

Lemma is_prime_correct n :
  is_prime n = Ret (if Zprime_dec n then 1 else 0).
Proof.
  destruct (Z_le_dec n 1) as [H1|H1].
  { rewrite is_prime_le_1 by assumption.
    destruct (Zprime_dec n) as [Hp|_]; [|reflexivity].
    apply Z.prime_ge_2 in Hp. lia. }
  destruct (Z_le_dec n 3) as [H3|H3].
  { rewrite is_prime_2_3 by lia.
    destruct (Zprime_dec n) as [_|Hnp]; [reflexivity|].
    exfalso. apply Hnp.
    assert (n = 2 \/ n = 3) as [-> | ->] by lia; [apply Z.prime_2|apply Z.prime_3]. }
  rewrite is_prime_gt_3 by lia.
  destruct (n mod 2 =? 0) eqn:E2.
  { simpl. destruct (Zprime_dec n) as [Hp|_]; [|reflexivity].
    exfalso. assert (2 = n); [|lia].
    apply prime_positive_divisor; [assumption|lia|].
    apply mod_zero_divide; lia. }
  destruct (n mod 3 =? 0) eqn:E3.
  { simpl. destruct (Zprime_dec n) as [Hp|_]; [|reflexivity].
    exfalso. assert (3 = n); [|lia].
    apply prime_positive_divisor; [assumption|lia|].
    apply mod_zero_divide; lia. }
  simpl.
  destruct (is_prime_loop_spec n 5 ltac:(lia)) as [[Hr Hall]|[Hr [j [Hc Hj]]]];
    rewrite Hr; f_equal.
  - (* no candidate divides n *)
    destruct (Zprime_dec n) as [_|Hnp]; [reflexivity|]. exfalso.
    destruct (small_divisor n ltac:(lia) Hnp) as [d [Hd1 [Hdd Hdn]]].
    assert (Hnd : n mod d = 0) by (apply divide_mod_zero; [lia|assumption]).
    assert (Hd2 : d mod 2 <> 0).
    { intros Hm. apply mod_zero_divide in Hm; [|lia].
      assert (H2n : (2 | n)) by (eapply Z.divide_trans; eassumption).
      apply divide_mod_zero in H2n; lia. }
    assert (Hd3 : d mod 3 <> 0).
    { intros Hm. apply mod_zero_divide in Hm; [|lia].
      assert (H3n : (3 | n)) by (eapply Z.divide_trans; eassumption).
      apply divide_mod_zero in H3n; lia. }
    assert (Hd6 : d mod 6 = 5 \/ d mod 6 = 1).
    { clear -Hd2 Hd3. Z.div_mod_to_equations. lia. }
    destruct Hd6 as [H5|H7].
    + destruct (Hall d) as [Hbad _]; [|contradiction].
      unfold candidate. split; [clear -Hd1 H5; Z.div_mod_to_equations; lia|].
      split; [clear -H5; Z.div_mod_to_equations; lia|assumption].
    + assert (7 <= d) by (clear -Hd1 H7; Z.div_mod_to_equations; lia).
      destruct (Hall (d - 2)) as [_ Hbad].
      * unfold candidate. split; [lia|].
        split; [clear -H7; Z.div_mod_to_equations; lia|nia].
      * replace (d - 2 + 2) with d in Hbad by lia. contradiction.
  - (* a candidate divides n *)
    destruct (Zprime_dec n) as [Hp|_]; [|reflexivity]. exfalso.
    destruct Hc as [Hij [_ Hjj]].
    destruct Hj as [Hj|Hj].
    + assert (j = n); [|nia].
      apply prime_positive_divisor; [assumption|lia|].
      apply mod_zero_divide; lia.
    + assert (j + 2 = n); [|nia].
      apply prime_positive_divisor; [assumption|lia|].
      apply mod_zero_divide; lia.
Qed.

(** C4: [is_prime] returns 1 on the primes and 0 on every other
    integer; its loop stops as soon as [i * i] exceeds [n], and before
    that tests [i] and [i + 2] and moves on by 6. *)
Theorem is_prime_trial_division (n : Z) :
  (Z.prime n -> is_prime n = Ret 1) /\
  (~ Z.prime n -> is_prime n = Ret 0) /\
  (forall i, ~ i * i <= n -> is_prime_loop n i = Ret 1) /\
  (forall i, 0 < i -> i * i <= n ->
     is_prime_loop n i =
       if (n mod i =? 0) || (n mod (i + 2) =? 0) then Ret 0
       else is_prime_loop n (i + 6)).
Proof.
  split; [|split; [|split]].
  - intros Hp. rewrite is_prime_correct.
    destruct (Zprime_dec n); [reflexivity|contradiction].
  - intros Hp. rewrite is_prime_correct.
    destruct (Zprime_dec n); [contradiction|reflexivity].
  - intros i. apply is_prime_loop_exit.
  - intros i Hi Hle.
    rewrite is_prime_loop_step, divides_either_pos, obind_Ret by assumption.
    reflexivity.
Qed.

Example is_prime_97 : is_prime 97 = Ret 1.
Proof. reflexivity. Qed.

Example is_prime_91 : is_prime 91 = Ret 0.
Proof. reflexivity. Qed.

Example is_prime_neg : is_prime (-7) = Ret 0.
Proof. reflexivity. Qed.

End IsPrimeCorrect.

(** ** The monad of scripts *)

Section MonadFacts.
Context {G : Generator}.

Lemma bind_mret {A B : Type} (a : A) (k : A -> M G B) (w : world G) :
  (mret a ≫= k) w = k a w.
Proof. reflexivity. Qed.

Lemma bind_lift_Ret {A B : Type} (a : A) (k : A -> M G B) (w : world G) :
  (lift (Ret a) ≫= k) w = k a w.
Proof. reflexivity. Qed.

Lemma bind_lift_Raise {A B : Type} (e : exn) (k : A -> M G B) (w : world G) :
  (lift (Raise e) ≫= k) w = (Raise e, w).
Proof. reflexivity. Qed.

Lemma bind_randint {B : Type} (lo hi : Z) (k : Z -> M G B) (w : world G) :
  (random_randint lo hi ≫= k) w =
    k (fst (randint G lo hi (gen w)))
      {| gen := snd (randint G lo hi (gen w)); stdout := stdout w; heap := heap w |}.
Proof.
  unfold mbind, M_bind, mbind', random_randint.
  destruct (randint G lo hi (gen w)). reflexivity.
Qed.

Lemma bind_seed {B : Type} (x : Z) (k : unit -> M G B) (w : world G) :
  (random_seed x ≫= k) w =
    k tt {| gen := seed G x; stdout := stdout w; heap := heap w |}.
Proof. reflexivity. Qed.

Lemma bind_print_str {B : Type} (s : string) (k : unit -> M G B) (w : world G) :
  (print_str s ≫= k) w =
    k tt {| gen := gen w; stdout := stdout w ++ [s]; heap := heap w |}.
Proof. reflexivity. Qed.

Lemma bind_print_int {B : Type} (n : Z) (k : unit -> M G B) (w : world G) :
  (print_int n ≫= k) w =
    k tt {| gen := gen w; stdout := stdout w ++ [str n]; heap := heap w |}.
Proof. reflexivity. Qed.

Lemma bind_Ret_eq {A B : Type} (m : M G A) (k : A -> M G B) (w w' : world G) (a : A) :
  m w = (Ret a, w') -> (m ≫= k) w = k a w'.
Proof. intros H. unfold mbind, M_bind, mbind'. rewrite H. reflexivity. Qed.

(** The rule of the [for] loop: an invariant that every iteration
    re-establishes, without raising, holds when the loop ends, and the
    loop ends without raising. *)
Lemma for_range_inv {S : Type} (I : Z -> S -> world G -> Prop)
      (body : Z -> S -> M G S) (n : nat) :
  forall (lo : Z) (s : S) (w : world G),
    I lo s w ->
    (forall i s w, lo <= i < lo + Z.of_nat n -> I i s w ->
       exists s' w', body i s w = (Ret s', w') /\ I (i + 1) s' w') ->
    exists s' w',
      for_range lo n body s w = (Ret s', w') /\ I (lo + Z.of_nat n) s' w'.
Proof.
  induction n as [|n IH]; intros lo s w Hinit Hstep.
  - exists s, w. split; [reflexivity|].
    replace (lo + Z.of_nat 0) with lo by lia. exact Hinit.
  - destruct (Hstep lo s w ltac:(lia) Hinit) as [s1 [w1 [Hb H1]]].
    destruct (IH (lo + 1) s1 w1 H1) as [s2 [w2 [Hl H2]]].
    { intros i s' w' Hi. apply Hstep. lia. }
    exists s2, w2. split.
    + simpl. unfold mbind'. rewrite Hb. exact Hl.
    + replace (lo + Z.of_nat (Datatypes.S n)) with (lo + 1 + Z.of_nat n) by lia. exact H2.
Qed.

Lemma range_loop_inv {S : Type} (I : Z -> S -> world G -> Prop)
      (body : Z -> S -> M G S) (lo hi : Z) (s : S) (w : world G) :
  lo <= hi ->
  I lo s w ->
  (forall i s w, lo <= i < hi -> I i s w ->
     exists s' w', body i s w = (Ret s', w') /\ I (i + 1) s' w') ->
  exists s' w', range_loop lo hi body s w = (Ret s', w') /\ I hi s' w'.
Proof.
  intros Hle Hinit Hstep. unfold range_loop.
  destruct (for_range_inv I body (Z.to_nat (hi - lo)) lo s w Hinit)
    as [s' [w' [Hl Hi]]].
  { intros i s0 w0 Hi. apply Hstep. lia. }
  exists s', w'. split; [exact Hl|].
  replace (lo + Z.of_nat (Z.to_nat (hi - lo))) with hi in Hi by lia. exact Hi.
Qed.

(** A run that starts by seeding forgets the state it started with. *)
Lemma run_seed_first (x : Z) (rest : M G unit) (g0 : rng G) :
  run (random_seed x;; rest) g0 =
    rest {| gen := seed G x; stdout := []; heap := [] |}.
Proof. reflexivity. Qed.

End MonadFacts.

(** ** Printed integers *)

Section StrFacts.

Lemma all_digits_uint d : all_digits (NilEmpty.string_of_uint d) = true.
Proof. induction d; simpl; try assumption; reflexivity. Qed.

Lemma unsigned_integer_uint d :
  d <> Decimal.Nil -> unsigned_integer (NilEmpty.string_of_uint d) = true.
Proof.
  intros Hd. pose proof (all_digits_uint d) as Ha.
  destruct d; [contradiction|..]; exact Ha.
Qed.

Lemma string_of_uint_nonnil d :
  d <> Decimal.Nil -> NilZero.string_of_uint d = NilEmpty.string_of_uint d.
Proof. intros Hd. destruct d; [contradiction|..]; reflexivity. Qed.

Lemma plain_integer_unsigned s :
  unsigned_integer s = true -> plain_integer s = true.
Proof.
  intros Hs. unfold plain_integer.
  destruct s as [|c s']; [exact Hs|].
  destruct (Ascii.eqb_spec c "-"%char) as [->|Hne].
  - simpl in Hs. discriminate.
  - destruct c as [[] [] [] [] [] [] [] []]; try exact Hs. contradiction.
Qed.

Lemma plain_integer_str n : plain_integer (str n) = true.
Proof.
  unfold str. destruct n as [|p|p]; simpl.
  - reflexivity.
  - rewrite string_of_uint_nonnil by apply Unsigned.to_uint_nonnil.
    apply plain_integer_unsigned, unsigned_integer_uint, Unsigned.to_uint_nonnil.
  - rewrite string_of_uint_nonnil by apply Unsigned.to_uint_nonnil.
    apply unsigned_integer_uint, Unsigned.to_uint_nonnil.
Qed.

Lemma only_integers_map_str l : only_integers (map str l) = true.
Proof.
  induction l as [|x l IH]; [reflexivity|].
  simpl. rewrite plain_integer_str. exact IH.
Qed.

End StrFacts.

(** ** Drawing from a generator that honours its range *)

Section DrawFacts.
Context {G : Generator}.
Hypothesis Hrange : in_range G.

Lemma randint_spec {B : Type} (lo hi : Z) (k : Z -> M G B) (w : world G) :
  lo <= hi ->
  exists x w',
    lo <= x <= hi /\ stdout w' = stdout w /\ heap w' = heap w /\
    (random_randint lo hi ≫= k) w = k x w'.
Proof.
  intros Hle. rewrite bind_randint.
  eexists _, _. split; [apply (Hrange lo hi (gen w) Hle)|].
  split; [|split]; [| |reflexivity]; reflexivity.
Qed.

End DrawFacts.

(** Replace the next draw of the goal by a variable in its range. *)
Ltac draw Hr a Ha w1 :=
  match goal with
  | |- context [(random_randint ?lo ?hi ≫= ?k) ?w] =>
      let Hout := fresh "Hout" in
      let Hheap := fresh "Hheap" in
      let E := fresh "E" in
      destruct (randint_spec Hr lo hi k w ltac:(lia))
        as (a & w1 & Ha & Hout & Hheap & E);
      rewrite E; clear E
  end.

(** ** arithmetic_operations.py *)

Section ArithmeticFacts.
Context {G : Generator}.
Hypothesis Hrange : in_range G.
Import ArithmeticOperations.

Lemma divisor_positive b : 1 <= b mod 10 + 1 <= 10.
Proof. pose proof (Z.mod_pos_bound b 10). lia. Qed.

(** One iteration: no exception, nothing printed, and the accumulator
    grows by at least 3. *)
Lemma arithmetic_body_spec (i result : Z) (w : world G) :
  exists result' w',
    body i result w = (Ret result', w') /\
    stdout w' = stdout w /\ result + 3 <= result'.
Proof.
  unfold body.
  draw Hrange a Ha w1. draw Hrange b Hb w2.
  rewrite (py_mod_nonzero b 10), bind_lift_Ret by lia.
  pose proof (divisor_positive b) as Hd.
  rewrite py_floordiv_nonzero, bind_lift_Ret by lia.
  eexists _, _. split; [reflexivity|]. split; [congruence|].
  assert (0 <= a / (b mod 10 + 1)) by (apply Z.div_pos; lia).
  nia.
Qed.

Lemma arithmetic_loop_spec (n : Z) (w : world G) :
  0 <= n ->
  exists result w',
    range_loop 0 n body 0 w = (Ret result, w') /\
    stdout w' = stdout w /\ 3 * n <= result.
Proof.
  intros Hn.
  destruct (range_loop_inv
              (fun i result w' => stdout w' = stdout w /\ 3 * i <= result)
              body 0 n 0 w Hn) as (r & w' & Hl & Ho & Hb).
  - split; [reflexivity|lia].
  - intros i s w0 _ [Ho Hb].
    destruct (arithmetic_body_spec i s w0) as (s' & w1 & E & Ho' & Hs).
    exists s', w1. split; [exact E|]. split; [congruence|lia].
  - exists r, w'. auto.
Qed.

Lemma arithmetic_main_spec (g0 : rng G) :
  exists result w,
    run main g0 = (Ret tt, w) /\ stdout w = [str result] /\ 300000 <= result.
Proof.
  unfold main. rewrite run_seed_first.
  set (w0 := {| gen := seed G 42 |}).
  destruct (arithmetic_loop_spec 100000 w0 ltac:(lia)) as (r & w' & Hl & Ho & Hb).
  rewrite (bind_Ret_eq _ _ _ _ _ Hl).
  eexists r, _. split; [reflexivity|]. split; [|lia].
  simpl. rewrite Ho. reflexivity.
Qed.

End ArithmeticFacts.

(** ** option_operations.py *)

Section OptionFacts.
Context {G : Generator}.
Hypothesis Hrange : in_range G.
Import OptionOperations.

Lemma option_body_spec (i : Z) (s : Z * Z) (w : world G) :
  exists s' w',
    body i s w = (Ret s', w') /\ stdout w' = stdout w /\
    fst s <= fst s' /\ snd s <= snd s'.
Proof.
  destruct s as [success_count none_count]. unfold body.
  draw Hrange val Hval w1.
  destruct (Z.gtb_spec val 50).
  - eexists _, _. split; [reflexivity|]. split; [congruence|]. simpl. lia.
  - eexists _, _. split; [reflexivity|]. split; [congruence|]. simpl. lia.
Qed.

Lemma option_main_spec (g0 : rng G) :
  exists success_count none_count w,
    run main g0 = (Ret tt, w) /\ stdout w = [str success_count; str none_count].
Proof.
  unfold main. rewrite run_seed_first.
  set (w0 := {| gen := seed G 42 |}).
  destruct (range_loop_inv (fun _ _ w' => stdout w' = stdout w0)
              body 0 50000 (0, 0) w0 ltac:(lia) eq_refl)
    as ([sc nc] & w' & Hl & Ho).
  { intros i s w1 _ Ho.
    destruct (option_body_spec i s w1) as (s' & w2 & E & Ho' & _).
    exists s', w2. split; [exact E|congruence]. }
  rewrite (bind_Ret_eq _ _ _ _ _ Hl).
  eexists sc, nc, _. split; [reflexivity|].
  simpl. rewrite Ho. reflexivity.
Qed.

End OptionFacts.

(** ** result_operations.py *)

Section ResultFacts.
Context {G : Generator}.
Hypothesis Hrange : in_range G.
Import ResultOperations ResultOperationsScript.

(** One iteration: no exception; the quotient that is added is not
    negative, and nothing is taken modulo anything. *)
Lemma result_body_spec (i : Z) (s : Z * Z) (w : world G) :
  exists s' w',
    body i s w = (Ret s', w') /\ stdout w' = stdout w /\
    fst s <= fst s' /\ snd s <= snd s'.
Proof.
  destruct s as [success_sum error_count]. unfold body.
  draw Hrange a Ha w1. draw Hrange b Hb w2.
  destruct (Z.eq_dec b 0) as [->|Hnz].
  - rewrite consume_zero.
    eexists _, _. split; [reflexivity|]. split; [congruence|]. simpl. lia.
  - rewrite consume_nonzero by assumption.
    eexists _, _. split; [reflexivity|]. split; [congruence|]. simpl.
    assert (0 <= a / b) by (apply Z.div_pos; lia). lia.
Qed.

Lemma result_main_spec (g0 : rng G) :
  exists success_sum error_count w,
    run main g0 = (Ret tt, w) /\ stdout w = [str success_sum; str error_count].
Proof.
  unfold main. rewrite run_seed_first.
  set (w0 := {| gen := seed G 42 |}).
  destruct (range_loop_inv (fun _ _ w' => stdout w' = stdout w0)
              body 0 50000 (0, 0) w0 ltac:(lia) eq_refl)
    as ([ss ec] & w' & Hl & Ho).
  { intros i s w1 _ Ho.
    destruct (result_body_spec i s w1) as (s' & w2 & E & Ho' & _).
    exists s', w2. split; [exact E|congruence]. }
  rewrite (bind_Ret_eq _ _ _ _ _ Hl).
  eexists ss, ec, _. split; [reflexivity|].
  simpl. rewrite Ho. reflexivity.
Qed.

End ResultFacts.

(** ** nested_loops.py *)

Section NestedFacts.
Context {G : Generator}.
Import NestedLoops.

(** The conditional reduction keeps the sum at or below the modulus. *)
Lemma nested_inner_spec (i j sum_val : Z) (w : world G) :
  0 <= i -> 0 <= j -> 0 <= sum_val <= 1000000 ->
  exists sum_val',
    inner i j sum_val w = (Ret sum_val', w) /\ 0 <= sum_val' <= 1000000.
Proof.
  intros Hi Hj Hs. unfold inner.
  destruct (Z.gtb_spec (sum_val + i * j) 1000000).
  - rewrite (py_mod_nonzero _ 1000000) by lia.
    eexists. split; [reflexivity|].
    pose proof (Z.mod_pos_bound (sum_val + i * j) 1000000). lia.
  - eexists. split; [reflexivity|]. nia.
Qed.

Lemma nested_outer_spec (i sum_val : Z) (w : world G) :
  0 <= i -> 0 <= sum_val <= 1000000 ->
  exists sum_val',
    outer i sum_val w = (Ret sum_val', w) /\ 0 <= sum_val' <= 1000000.
Proof.
  intros Hi Hs. unfold outer.
  destruct (range_loop_inv (fun _ s w' => w' = w /\ 0 <= s <= 1000000)
              (inner i) 0 500 sum_val w ltac:(lia))
    as (s' & w' & Hl & -> & Hb).
  - split; [reflexivity|exact Hs].
  - intros j s w1 Hj [-> Hb].
    destruct (nested_inner_spec i j s w Hi ltac:(lia) Hb) as (s' & E & Hb').
    exists s', w. auto.
  - exists s'. auto.
Qed.

Lemma nested_main_spec (g0 : rng G) :
  exists sum_val w,
    run main g0 = (Ret tt, w) /\ stdout w = [str sum_val] /\ gen w = g0 /\
    0 <= sum_val <= 1000000.
Proof.
  unfold main, run.
  set (w0 := {| gen := g0 |}).
  destruct (range_loop_inv (fun _ s w' => w' = w0 /\ 0 <= s <= 1000000)
              outer 0 1000 0 w0 ltac:(lia))
    as (s' & w' & Hl & -> & Hb).
  - split; [reflexivity|lia].
  - intros i s w1 Hi [-> Hb].
    destruct (nested_outer_spec i s w0 ltac:(lia) Hb) as (s' & E & Hb').
    exists s', w0. auto.
  - exists s', {| gen := g0; stdout := [str s']; heap := [] |}.
    split; [|auto].
    exact (bind_Ret_eq (range_loop 0 1000 outer 0) print_int w0 w0 s' Hl).
Qed.

End NestedFacts.

(** ** string_operations.py *)

Section StringFacts.
Context {G : Generator}.
Hypothesis Hrange : in_range G.
Import StringOperations.

Lemma all_digits_comma r : all_digits (r +:+ ",") = false.
Proof.
  induction r as [|c r IH]; [reflexivity|].
  simpl. rewrite IH. apply andb_false_r.
Qed.

Lemma unsigned_integer_comma r : unsigned_integer (r +:+ ",") = false.
Proof. destruct r as [|c r]; [reflexivity|]. apply (all_digits_comma (String c r)). Qed.

(** A string that ends with a comma is not a plain integer. *)
Lemma plain_integer_comma r : plain_integer (r +:+ ",") = false.
Proof.
  destruct r as [|c r]; [reflexivity|].
  destruct (Ascii.eqb_spec c "-"%char) as [->|Hne].
  - apply (unsigned_integer_comma r).
  - change (String c r +:+ ",")%string with (String c (r +:+ ",")).
    unfold plain_integer.
    pose proof (unsigned_integer_comma (String c r)) as Hu.
    change (String c r +:+ ",")%string with (String c (r +:+ ",")) in Hu.
    destruct c as [[] [] [] [] [] [] [] []]; try exact Hu. contradiction.
Qed.

Lemma string_body_spec (i : Z) (s : string * Z) (w : world G) :
  exists num w',
    0 <= num <= 9 /\
    body i s w =
      (Ret (((fst s +:+ str num) +:+ ",")%string,
            snd s + strlen ((fst s +:+ str num) +:+ ",")), w') /\
    stdout w' = stdout w.
Proof.
  destruct s as [res count]. unfold body.
  draw Hrange num Hnum w1.
  exists num, w1. split; [exact Hnum|]. split; [reflexivity|congruence].
Qed.

(** The script prints three lines; the second is the accumulated
    string, which ends with a comma. *)
Lemma string_main_spec (g0 : rng G) :
  exists count r w,
    run main g0 = (Ret tt, w) /\
    stdout w = [str count; (r +:+ ",")%string; str (strlen (r +:+ ","))].
Proof.
  unfold main, run.
  set (w0 := {| gen := g0 |}).
  destruct (range_loop_inv
              (fun i (s : string * Z) w' =>
                 stdout w' = stdout w0 /\
                 (0 < i -> exists r, fst s = (r +:+ ",")%string))
              body 0 5000 (EmptyString, 0) w0 ltac:(lia))
    as ([res count] & w' & Hl & Ho & Hr).
  - split; [reflexivity|lia].
  - intros i s w1 _ [Ho _].
    destruct (string_body_spec i s w1) as (num & w2 & _ & E & Ho').
    eexists _, w2. split; [exact E|]. split; [congruence|].
    intros _. eexists. reflexivity.
  - destruct (Hr ltac:(lia)) as [r Hres]. simpl in Hres. subst res.
    rewrite (bind_Ret_eq _ _ _ _ _ Hl).
    eexists count, r, _. split; [reflexivity|].
    simpl. rewrite Ho. reflexivity.
Qed.

End StringFacts.

(** ** tuple_operations.py *)

Section TupleFacts.
Context {G : Generator}.
Import TupleOperations.

Lemma tuple_main_spec (g0 : rng G) :
  run main g0 =
    (Ret tt,
     {| gen := g0;
        stdout := ["10000"; "2300000"; "120000"; "110000"; "70000";
                   "Total checksum: 2610000"]%string;
        heap := [] |}).
Proof. vm_compute. reflexivity. Qed.

End TupleFacts.

(** ** Indexing within bounds *)

Section IndexFacts.
Context {A : Type}.

Lemma py_index_in_bounds (l : list A) (i : Z) :
  0 <= i < len l -> exists x, py_index l i = Ret x /\ l !! Z.to_nat i = Some x.
Proof.
  unfold len. intros Hi. unfold py_index.
  destruct (Z.ltb_spec i 0); [lia|].
  destruct (Z.leb_spec 0 i); [|lia].
  destruct (Z.ltb_spec i (Z.of_nat (length l))); [|lia].
  simpl.
  destruct (lookup_lt_is_Some_2 l (Z.to_nat i) ltac:(lia)) as [x Hx].
  exists x. rewrite Hx. auto.
Qed.

Lemma py_setitem_in_bounds (l : list A) (i : Z) (x : A) :
  0 <= i < len l -> py_setitem l i x = Ret (<[Z.to_nat i := x]> l).
Proof.
  unfold len. intros Hi. unfold py_setitem.
  destruct (Z.ltb_spec i 0); [lia|].
  destruct (Z.leb_spec 0 i); [|lia].
  destruct (Z.ltb_spec i (Z.of_nat (length l))); [|lia].
  reflexivity.
Qed.

Lemma py_index_out_of_bounds (l : list A) (i : Z) :
  len l <= i -> py_index l i = Raise IndexError.
Proof.
  unfold len. intros Hi. unfold py_index.
  destruct (Z.ltb_spec i 0); [lia|].
  destruct (Z.ltb_spec i (Z.of_nat (length l))); [lia|].
  rewrite andb_false_r. reflexivity.
Qed.

Lemma len_insert (l : list A) (n : nat) (x : A) : len (<[n := x]> l) = len l.
Proof. unfold len. rewrite length_insert. reflexivity. Qed.

End IndexFacts.

(** ** array_operations.py *)

Section ArrayFacts.
Context {G : Generator}.
Hypothesis Hrange : in_range G.
Import ArrayOperations.

(** One iteration on a list of ten elements: the index drawn is one
    of 0 to 9, the read and the write succeed, and the list still
    has ten elements. *)
Lemma array_body_spec (i : Z) (arr : list Z) (sum_val : Z) (w : world G) :
  len arr = 10 ->
  exists idx arr_val new_val sum_val' w',
    0 <= idx <= 9 /\
    py_index arr idx = Ret arr_val /\
    py_setitem arr idx new_val = Ret (<[Z.to_nat idx := new_val]> arr) /\
    body i (arr, sum_val) w = (Ret (<[Z.to_nat idx := new_val]> arr, sum_val'), w') /\
    len (<[Z.to_nat idx := new_val]> arr) = 10 /\
    stdout w' = stdout w.
Proof.
  intros Hlen. unfold body.
  draw Hrange idx Hidx w1.
  destruct (py_index_in_bounds arr idx ltac:(lia)) as [arr_val [Hget _]].
  rewrite Hget, bind_lift_Ret.
  rewrite (py_mod_nonzero (sum_val + arr_val) 100000), bind_lift_Ret by lia.
  rewrite (py_mod_nonzero arr_val 100000), bind_lift_Ret by lia.
  rewrite (py_mod_nonzero _ 100000), bind_lift_Ret by lia.
  set (new_val := ((sum_val + arr_val) mod 100000 + arr_val mod 100000) mod 100000).
  rewrite (py_setitem_in_bounds arr idx new_val), bind_lift_Ret by lia.
  rewrite (py_mod_nonzero i 1000), bind_lift_Ret by lia.
  exists idx, arr_val, new_val.
  destruct (i mod 1000 =? 0).
  - rewrite bind_lift_Ret.
    rewrite (py_mod_nonzero _ 100000), bind_lift_Ret by lia.
    eexists _, _. split; [exact Hidx|]. split; [exact Hget|].
    split; [apply py_setitem_in_bounds; lia|]. split; [reflexivity|].
    split; [rewrite len_insert; exact Hlen|congruence].
  - eexists _, _. split; [exact Hidx|]. split; [exact Hget|].
    split; [apply py_setitem_in_bounds; lia|]. split; [reflexivity|].
    split; [rewrite len_insert; exact Hlen|congruence].
Qed.

(** The length is 10 after any number of iterations. *)
Lemma array_loop_spec (n : Z) (w : world G) :
  0 <= n ->
  exists arr sum_val w',
    range_loop 0 n body ([0; 1; 2; 3; 4; 5; 6; 7; 8; 9], 0) w = (Ret (arr, sum_val), w') /\
    len arr = 10 /\ stdout w' = stdout w.
Proof.
  intros Hn.
  destruct (range_loop_inv
              (fun _ (s : list Z * Z) w' => len (fst s) = 10 /\ stdout w' = stdout w)
              body 0 n ([0; 1; 2; 3; 4; 5; 6; 7; 8; 9], 0) w Hn)
    as ([arr sum_val] & w' & Hl & Hlen & Ho).
  - split; reflexivity.
  - intros i [arr sum_val] w1 _ [Hlen Ho]. simpl in Hlen.
    destruct (array_body_spec i arr sum_val w1 Hlen)
      as (idx & arr_val & new_val & sum' & w2 & _ & _ & _ & E & Hlen' & Ho').
    eexists _, w2. split; [exact E|]. split; [exact Hlen'|congruence].
  - exists arr, sum_val, w'. auto.
Qed.

(** The printing loop prints the elements in order. *)
Lemma array_print_spec (arr : list Z) (w : world G) :
  exists w',
    range_loop 0 (len arr) (print_item arr) tt w = (Ret tt, w') /\
    stdout w' = stdout w ++ map str arr.
Proof.
  destruct (range_loop_inv
              (fun i (_ : unit) w' =>
                 stdout w' = stdout w ++ map str (take (Z.to_nat i) arr))
              (print_item arr) 0 (len arr) tt w)
    as ([] & w' & Hl & Ho).
  - unfold len. lia.
  - simpl. rewrite app_nil_r. reflexivity.
  - intros i [] w1 Hi Ho. unfold print_item.
    destruct (py_index_in_bounds arr i ltac:(lia)) as [x [Hget Hlook]].
    rewrite Hget, bind_lift_Ret.
    eexists tt, _. split; [reflexivity|].
    simpl. rewrite Ho.
    replace (Z.to_nat (i + 1)) with (Datatypes.S (Z.to_nat i)) by lia.
    rewrite (take_S_r _ _ _ Hlook), map_app, app_assoc. reflexivity.
  - exists w'. split; [exact Hl|]. rewrite Ho.
    unfold len. rewrite Nat2Z.id, firstn_all. reflexivity.
Qed.

Lemma array_main_spec (g0 : rng G) :
  exists sum_val arr w,
    run main g0 = (Ret tt, w) /\ len arr = 10 /\
    stdout w = str sum_val :: map str arr.
Proof.
  unfold main. rewrite run_seed_first.
  set (w0 := {| gen := seed G 42 |}).
  destruct (array_loop_spec 50000 w0 ltac:(lia)) as (arr & sum_val & w1 & Hl & Hlen & Ho).
  rewrite (bind_Ret_eq _ _ _ _ _ Hl).
  rewrite bind_print_int.
  set (w2 := {| gen := gen w1 |}).
  destruct (array_print_spec arr w2) as (w3 & Hp & Ho3).
  exists sum_val, arr, w3. split; [exact Hp|]. split; [exact Hlen|].
  rewrite Ho3. simpl. rewrite Ho. reflexivity.
Qed.

End ArrayFacts.

(** ** function_calls.py *)

Section FunctionCallsFacts.
Context {G : Generator}.
Hypothesis Hrange : in_range G.
Import FunctionCalls FunctionCallsScript.

Lemma array_sum_five (a b c d e : Z) (w : world G) :
  array_sum [a; b; c; d; e] w = (Ret (0 + a + b + c + d + e), w).
Proof. reflexivity. Qed.

Lemma function_calls_body_spec (i res : Z) (w : world G) :
  exists res' w', body i res w = (Ret res', w') /\ stdout w' = stdout w.
Proof.
  unfold body.
  draw Hrange a Ha w1. draw Hrange b Hb w2.
  rewrite (bind_Ret_eq _ _ _ _ _ (array_sum_five _ _ _ _ _ w2)).
  rewrite (py_mod_nonzero (0 + a + b + (a + b) + (a - b) + a * 2) 10),
    bind_lift_Ret by lia.
  rewrite (py_mod_nonzero i 1000), bind_lift_Ret by lia.
  destruct (i mod 1000 =? 0).
  - rewrite (py_mod_nonzero a 10), bind_lift_Ret by lia.
    destruct (fibonacci_total (a mod 10)) as [f Hf].
    rewrite Hf, bind_lift_Ret.
    eexists _, _. split; [reflexivity|congruence].
  - eexists _, _. split; [reflexivity|congruence].
Qed.

Lemma function_calls_main_spec (g0 : rng G) :
  exists res w, run main g0 = (Ret tt, w) /\ stdout w = [str res].
Proof.
  unfold main. rewrite run_seed_first.
  set (w0 := {| gen := seed G 42 |}).
  destruct (range_loop_inv (fun _ _ w' => stdout w' = stdout w0)
              body 0 10000 0 w0 ltac:(lia) eq_refl)
    as (res & w' & Hl & Ho).
  { intros i s w1 _ Ho.
    destruct (function_calls_body_spec i s w1) as (s' & w2 & E & Ho').
    exists s', w2. split; [exact E|congruence]. }
  rewrite (bind_Ret_eq _ _ _ _ _ Hl).
  eexists res, _. split; [reflexivity|].
  simpl. rewrite Ho. reflexivity.
Qed.

End FunctionCallsFacts.

(** ** math_intensive.py *)

Section MathIntensiveFacts.
Context {G : Generator}.
Hypothesis Hrange : in_range G.
Import MathIntensive MathIntensiveScript.

(** One iteration: no exception; [gcd_sum] receives a greatest common
    divisor of at least 1 and a remainder below 1000, and is not
    itself reduced. *)
Lemma math_body_spec (i : Z) (s : Z * Z) (w : world G) :
  exists a b w',
    1 <= a <= 1000 /\ 1 <= b <= 1000 /\
    body i s w =
      (Ret (if Zprime_dec i then fst s + 1 else fst s,
            snd s + Z.gcd a b + (i * i + a * b) mod 1000), w') /\
    stdout w' = stdout w.
Proof.
  destruct s as [prime_count gcd_sum]. unfold body.
  rewrite is_prime_correct, bind_lift_Ret.
  draw Hrange a Ha w1. draw Hrange b Hb w2.
  rewrite gcd_nonneg, bind_lift_Ret by lia.
  rewrite (py_mod_nonzero _ 1000), bind_lift_Ret by lia.
  exists a, b, w2. split; [exact Ha|]. split; [exact Hb|].
  split; [|congruence].
  simpl. destruct (Zprime_dec i); reflexivity.
Qed.

Lemma math_main_spec (g0 : rng G) :
  exists prime_count gcd_sum w,
    run main g0 = (Ret tt, w) /\ stdout w = [str prime_count; str gcd_sum].
Proof.
  unfold main. rewrite run_seed_first.
  set (w0 := {| gen := seed G 42 |}).
  destruct (range_loop_inv (fun _ _ w' => stdout w' = stdout w0)
              body 1 5000 (0, 0) w0 ltac:(lia) eq_refl)
    as ([pc gs] & w' & Hl & Ho).
  { intros i s w1 _ Ho.
    destruct (math_body_spec i s w1) as (a & b & w2 & _ & _ & E & Ho').
    eexists _, w2. split; [exact E|congruence]. }
  rewrite (bind_Ret_eq _ _ _ _ _ Hl).
  eexists pc, gs, _. split; [reflexivity|].
  simpl. rewrite Ho. reflexivity.
Qed.

End MathIntensiveFacts.

(** ** memory_allocation.py *)

Section MemoryFacts.
Context {G : Generator}.
Hypothesis Hrange : in_range G.
Import MemoryAllocation.

Lemma create_array_spec (size : Z) (w : world G) :
  0 <= size ->
  exists arr, create_array size w = (Ret arr, w) /\ len arr = size.
Proof.
  intros Hs. unfold create_array.
  destruct (range_loop_inv
              (fun _ (arr : list Z) w' => w' = w /\ len arr = size)
              (fun i arr => lift (py_setitem arr i i)) 0 size
              (replicate (Z.to_nat size) 0) w Hs)
    as (arr & w' & Hl & -> & Hlen).
  - split; [reflexivity|]. unfold len. rewrite length_replicate. lia.
  - intros i arr w1 Hi [-> Hlen].
    rewrite py_setitem_in_bounds by lia.
    eexists _, w. split; [reflexivity|]. split; [reflexivity|].
    rewrite len_insert. exact Hlen.
  - exists arr. auto.
Qed.

Lemma memory_body_spec (i total_length : Z) (w : world G) :
  exists size w',
    10 <= size <= 50 /\
    body i total_length w = (Ret (total_length + size + 10), w') /\
    stdout w' = stdout w.
Proof.
  unfold body.
  draw Hrange sz Hsize w1.
  destruct (create_array_spec sz w1 ltac:(lia)) as (arr & Hc & Hlen).
  rewrite (bind_Ret_eq _ _ _ _ _ Hc).
  exists sz, w1. split; [exact Hsize|]. split; [|congruence].
  unfold mret. do 2 f_equal.
  unfold len, py_slice in *.
  rewrite length_app, length_take, length_drop.
  change (length [1; 2; 3; 4; 5]) with 5%nat. lia.
Qed.

Lemma memory_main_spec (g0 : rng G) :
  exists total_length w, run main g0 = (Ret tt, w) /\ stdout w = [str total_length].
Proof.
  unfold main. rewrite run_seed_first.
  set (w0 := {| gen := seed G 42 |}).
  destruct (range_loop_inv (fun _ _ w' => stdout w' = stdout w0)
              body 0 1000 0 w0 ltac:(lia) eq_refl)
    as (tl & w' & Hl & Ho).
  { intros i s w1 _ Ho.
    destruct (memory_body_spec i s w1) as (size & w2 & _ & E & Ho').
    eexists _, w2. split; [exact E|congruence]. }
  rewrite (bind_Ret_eq _ _ _ _ _ Hl).
  eexists tl, _. split; [reflexivity|].
  simpl. rewrite Ho. reflexivity.
Qed.

End MemoryFacts.

(** ** ref_operations.py *)

Section RefFacts.
Context {G : Generator}.
Import RefOperations.

(** [increment] writes through the reference: the object at that
    address, and no other, has its field raised by one. *)
Lemma increment_spec (c : loc) (v : Z) (w : world G) :
  heap w !! c = Some {| value := v |} ->
  increment c w =
    (Ret tt, {| gen := gen w; stdout := stdout w;
                heap := <[c := {| value := v + 1 |}]> (heap w) |}).
Proof.
  intros Hc. unfold increment, get_value, set_value, mbind, M_bind, mbind'.
  rewrite Hc. simpl. rewrite Hc. reflexivity.
Qed.

Lemma increment_lookup (c : loc) (v : Z) (w : world G) :
  heap w !! c = Some {| value := v |} ->
  exists w',
    increment c w = (Ret tt, w') /\
    heap w' !! c = Some {| value := v + 1 |} /\
    gen w' = gen w /\ stdout w' = stdout w.
Proof.
  intros Hc. rewrite (increment_spec c v w Hc).
  eexists. split; [reflexivity|]. simpl.
  split; [|split; reflexivity].
  apply list_lookup_insert_eq. apply lookup_lt_Some in Hc. exact Hc.
Qed.

Lemma ref_inner_spec (c : loc) (w : world G) :
  heap w !! c = Some {| value := 0 |} ->
  exists w',
    range_loop 0 10 (fun _ _ => increment c) tt w = (Ret tt, w') /\
    heap w' !! c = Some {| value := 10 |} /\
    gen w' = gen w /\ stdout w' = stdout w.
Proof.
  intros Hc.
  destruct (range_loop_inv
              (fun i (_ : unit) w' =>
                 heap w' !! c = Some {| value := i |} /\
                 gen w' = gen w /\ stdout w' = stdout w)
              (fun _ _ => increment c) 0 10 tt w ltac:(lia))
    as ([] & w' & Hl & Hv & Hg & Ho).
  - auto.
  - intros i [] w1 _ (Hv & Hg & Ho).
    destruct (increment_lookup c i w1 Hv) as (w2 & E & Hv' & Hg' & Ho').
    exists tt, w2. split; [exact E|]. split; [exact Hv'|]. split; congruence.
  - exists w'. auto.
Qed.

(** One outer iteration adds exactly 10 and does not touch the
    generator. *)
Lemma ref_body_spec (i total : Z) (w : world G) :
  exists w',
    body i total w = (Ret (total + 10), w') /\
    gen w' = gen w /\ stdout w' = stdout w.
Proof.
  unfold body.
  set (w1 := {| gen := gen w; stdout := stdout w;
                heap := heap w ++ [{| value := 0 |}] |}).
  assert (Hnew : (new_Counter 0 : M G loc) w = (Ret (length (heap w)), w1))
    by reflexivity.
  rewrite (bind_Ret_eq _ _ _ _ _ Hnew).
  assert (Hc : heap w1 !! length (heap w) = Some {| value := 0 |}).
  { simpl. rewrite lookup_app_r by lia. rewrite Nat.sub_diag. reflexivity. }
  destruct (ref_inner_spec (length (heap w)) w1 Hc) as (w2 & Hl & Hv & Hg & Ho).
  rewrite (bind_Ret_eq _ _ _ _ _ Hl).
  assert (Hget : get_value (length (heap w)) w2 = (Ret 10, w2)).
  { unfold get_value. rewrite Hv. reflexivity. }
  rewrite (bind_Ret_eq _ _ _ _ _ Hget).
  exists w2. split; [reflexivity|]. split; [rewrite Hg|rewrite Ho]; reflexivity.
Qed.

Lemma ref_loop_spec (n : Z) (w : world G) :
  0 <= n ->
  exists w',
    range_loop 0 n body 0 w = (Ret (10 * n), w') /\
    gen w' = gen w /\ stdout w' = stdout w.
Proof.
  intros Hn.
  destruct (range_loop_inv
              (fun i total w' =>
                 total = 10 * i /\ gen w' = gen w /\ stdout w' = stdout w)
              body 0 n 0 w Hn)
    as (total & w' & Hl & -> & Hg & Ho).
  - auto.
  - intros i total w1 _ (-> & Hg & Ho).
    destruct (ref_body_spec i (10 * i) w1) as (w2 & E & Hg' & Ho').
    exists (10 * i + 10), w2. split; [exact E|].
    split; [lia|]. split; congruence.
  - exists w'. auto.
Qed.

Lemma ref_main_spec (g0 : rng G) :
  exists w,
    run main g0 = (Ret tt, w) /\ stdout w = ["100000"%string] /\
    gen w = seed G 42.
Proof.
  unfold main. rewrite run_seed_first.
  set (w0 := {| gen := seed G 42 |}).
  destruct (ref_loop_spec 10000 w0 ltac:(lia)) as (w' & Hl & Hg & Ho).
  exists {| gen := gen w'; stdout := stdout w' ++ [str (10 * 10000)]; heap := heap w' |}.
  split; [exact (bind_Ret_eq (range_loop 0 10000 body 0) print_int w0 w' _ Hl)|].
  simpl. rewrite Ho, Hg. split; reflexivity.
Qed.

End RefFacts.

(** ** The concrete generator honours its range *)

Lemma Lcg_in_range : in_range Lcg.generator.
Proof.
  intros lo hi g Hle. simpl. unfold Lcg.draw. simpl.
  destruct (Z.leb_spec lo hi); [|lia].
  pose proof (Z.mod_pos_bound (Lcg.next g / 65536) (hi - lo + 1)). lia.
Qed.

(** ** Every script runs to its end *)

Section AllScripts.
Context {G : Generator}.
Hypothesis Hrange : in_range G.

Lemma script_exits_normally (s : script_name) (g0 : rng G) :
  exits_normally (script s) g0.
Proof.
  unfold exits_normally. destruct s; unfold script.
  - destruct (arithmetic_main_spec Hrange g0) as (? & ? & -> & _). reflexivity.
  - destruct (array_main_spec Hrange g0) as (? & ? & ? & -> & _). reflexivity.
  - destruct (function_calls_main_spec Hrange g0) as (? & ? & -> & _). reflexivity.
  - destruct (math_main_spec Hrange g0) as (? & ? & ? & -> & _). reflexivity.
  - destruct (memory_main_spec Hrange g0) as (? & ? & -> & _). reflexivity.
  - destruct (nested_main_spec g0) as (? & ? & -> & _). reflexivity.
  - destruct (option_main_spec Hrange g0) as (? & ? & ? & -> & _). reflexivity.
  - destruct (ref_main_spec g0) as (? & -> & _). reflexivity.
  - destruct (result_main_spec Hrange g0) as (? & ? & ? & -> & _). reflexivity.
  - destruct (string_main_spec Hrange g0) as (? & ? & ? & -> & _). reflexivity.
  - rewrite tuple_main_spec. reflexivity.
Qed.

End AllScripts.

(** C3: no run of any script ends in an exception, so no division or
    modulo ever meets a zero divisor.  In arithmetic_operations the
    divisor [b % 10 + 1] is at least 1; in [gcd] the remainder is taken
    only when [b] is not zero, and the loop returns on all integers;
    the divisors of [is_prime] start at 5 and grow. *)
Theorem division_never_by_zero (G : Generator) (Hrange : in_range G) :
  (forall (s : script_name) (g0 : rng G), fst (run (script s) g0) = Ret tt) /\
  (forall a b, 1 <= b <= 100 ->
     1 <= b mod 10 + 1 /\
     py_mod b 10 = Ret (b mod 10) /\
     py_floordiv a (b mod 10 + 1) = Ret (a / (b mod 10 + 1))) /\
  (forall a, MathIntensive.gcd a 0 = Ret a) /\
  (forall a b, b <> 0 ->
     py_mod a b = Ret (a mod b) /\
     MathIntensive.gcd a b = MathIntensive.gcd b (a mod b)) /\
  (forall a b, exists r, MathIntensive.gcd a b = Ret r) /\
  (forall n, exists r, MathIntensive.is_prime n = Ret r) /\
  (forall a b, exists r, ResultOperations.divide a b = Ret r).
Proof.
  split; [intros s g0; apply (script_exits_normally Hrange)|].
  split.
  { intros a b Hb. pose proof (divisor_positive b) as Hd.
    split; [lia|]. split; [apply py_mod_nonzero; lia|].
    apply py_floordiv_nonzero; lia. }
  split; [exact gcd_zero|].
  split.
  { intros a b Hb. split; [apply py_mod_nonzero; exact Hb|apply gcd_step; exact Hb]. }
  split; [exact gcd_total|].
  split; [intros n; eexists; apply is_prime_correct|].
  intros a b. destruct (Z.eq_dec b 0) as [->|Hb].
  - eexists. apply divide_zero.
  - eexists. apply divide_nonzero. exact Hb.
Qed.

Lemma division_never_by_zero_witness :
  (forall (s : script_name) (g0 : rng Lcg.generator),
     fst (run (script s) g0) = Ret tt) /\
  (forall a b, 1 <= b <= 100 ->
     1 <= b mod 10 + 1 /\
     py_mod b 10 = Ret (b mod 10) /\
     py_floordiv a (b mod 10 + 1) = Ret (a / (b mod 10 + 1))) /\
  (forall a, MathIntensive.gcd a 0 = Ret a) /\
  (forall a b, b <> 0 ->
     py_mod a b = Ret (a mod b) /\
     MathIntensive.gcd a b = MathIntensive.gcd b (a mod b)) /\
  (forall a b, exists r, MathIntensive.gcd a b = Ret r) /\
  (forall n, exists r, MathIntensive.is_prime n = Ret r) /\
  (forall a b, exists r, ResultOperations.divide a b = Ret r).
Proof. exact (division_never_by_zero Lcg.generator Lcg_in_range). Defined.

(** C10: in array_operations the list starts with ten elements; in every
    iteration the index drawn lies in 0..9, the read [arr[idx]] and the
    write [arr[idx] = new_val] both succeed, and the list keeps its ten
    elements; so the length is 10 after any number of iterations and the
    run ends normally, printing the sum and the ten elements. *)
Theorem array_accesses_in_bounds (G : Generator) (Hrange : in_range G) :
  len [0; 1; 2; 3; 4; 5; 6; 7; 8; 9] = 10 /\
  (forall (i : Z) (arr : list Z) (sum_val : Z) (w : world G),
     len arr = 10 ->
     exists idx arr_val new_val sum_val' w',
       0 <= idx <= 9 /\
       py_index arr idx = Ret arr_val /\
       py_setitem arr idx new_val = Ret (<[Z.to_nat idx := new_val]> arr) /\
       ArrayOperations.body i (arr, sum_val) w =
         (Ret (<[Z.to_nat idx := new_val]> arr, sum_val'), w') /\
       len (<[Z.to_nat idx := new_val]> arr) = 10) /\
  (forall (n : Z) (w : world G),
     0 <= n ->
     exists arr sum_val w',
       range_loop 0 n ArrayOperations.body ([0; 1; 2; 3; 4; 5; 6; 7; 8; 9], 0) w =
         (Ret (arr, sum_val), w') /\
       len arr = 10) /\
  (forall g0 : rng G,
     exists sum_val arr w,
       run ArrayOperations.main g0 = (Ret tt, w) /\ len arr = 10 /\
       stdout w = str sum_val :: map str arr).
Proof.
  split; [reflexivity|]. split; [|split].
  - intros i arr sum_val w Hlen.
    destruct (array_body_spec Hrange i arr sum_val w Hlen)
      as (idx & arr_val & new_val & sum' & w' & H1 & H2 & H3 & H4 & H5 & _).
    exists idx, arr_val, new_val, sum', w'. auto.
  - intros n w Hn.
    destruct (array_loop_spec Hrange n w Hn) as (arr & sum_val & w' & Hl & Hlen & _).
    exists arr, sum_val, w'. auto.
  - intros g0. apply (array_main_spec Hrange).
Qed.

Lemma array_accesses_in_bounds_witness :
  in_range Lcg.generator /\
  exists sum_val arr w,
    run (G := Lcg.generator) ArrayOperations.main 7 = (Ret tt, w) /\ len arr = 10 /\
    stdout w = str sum_val :: map str arr.
Proof.
  split; [exact Lcg_in_range|].
  destruct (array_accesses_in_bounds Lcg.generator Lcg_in_range) as (_ & _ & _ & H).
  exact (H 7).
Defined.

(** C9: [increment] raises the field of the object it is given by
    exactly one; every outer iteration therefore adds 10, the script
    prints 100000 on every generator and from every initial state, and
    the generator is left in the state that seeding with 42 gave it. *)
Theorem ref_operations_prints_100000 (G : Generator) :
  (forall (c : loc) (v : Z) (w : world G),
     heap w !! c = Some {| value := v |} ->
     exists w',
       RefOperations.increment c w = (Ret tt, w') /\
       heap w' !! c = Some {| value := v + 1 |}) /\
  (forall (i total : Z) (w : world G),
     exists w',
       RefOperations.body i total w = (Ret (total + 10), w') /\ gen w' = gen w) /\
  (forall g0 : rng G,
     exists w,
       run RefOperations.main g0 = (Ret tt, w) /\
       stdout w = ["100000"%string] /\ gen w = seed G 42).
Proof.
  split; [|split].
  - intros c v w Hc.
    destruct (increment_lookup c v w Hc) as (w' & E & Hv & _).
    exists w'. auto.
  - intros i total w.
    destruct (ref_body_spec i total w) as (w' & E & Hg & _).
    exists w'. auto.
  - intros g0. apply ref_main_spec.
Qed.

(** ** Accumulators and modulo reductions *)

Section AccumulatorFacts.
Context {G : Generator}.
Hypothesis Hrange : in_range G.

(** array_operations: the value written is reduced modulo 100000; the
    sum is reduced only on the iterations whose index is a multiple
    of 1000, and otherwise just grows by the element read. *)
Lemma array_body_bounds (i : Z) (arr : list Z) (sum_val : Z) (w : world G) :
  len arr = 10 ->
  exists idx arr_val new_val sum_val' w',
    py_index arr idx = Ret arr_val /\
    ArrayOperations.body i (arr, sum_val) w =
      (Ret (<[Z.to_nat idx := new_val]> arr, sum_val'), w') /\
    0 <= new_val < 100000 /\
    (i mod 1000 = 0 -> 0 <= sum_val' < 100000) /\
    (i mod 1000 <> 0 -> sum_val' = sum_val + arr_val).
Proof.
  intros Hlen. unfold ArrayOperations.body.
  draw Hrange idx Hidx w1.
  destruct (py_index_in_bounds arr idx ltac:(lia)) as [arr_val [Hget _]].
  rewrite Hget, bind_lift_Ret.
  rewrite (py_mod_nonzero (sum_val + arr_val) 100000), bind_lift_Ret by lia.
  rewrite (py_mod_nonzero arr_val 100000), bind_lift_Ret by lia.
  rewrite (py_mod_nonzero _ 100000), bind_lift_Ret by lia.
  set (new_val := ((sum_val + arr_val) mod 100000 + arr_val mod 100000) mod 100000).
  rewrite (py_setitem_in_bounds arr idx new_val), bind_lift_Ret by lia.
  rewrite (py_mod_nonzero i 1000), bind_lift_Ret by lia.
  assert (Hnew : 0 <= new_val < 100000) by (apply Z.mod_pos_bound; lia).
  exists idx, arr_val, new_val.
  destruct (Z.eqb_spec (i mod 1000) 0) as [Hz|Hnz].
  - rewrite bind_lift_Ret.
    rewrite (py_mod_nonzero _ 100000), bind_lift_Ret by lia.
    eexists _, _. split; [exact Hget|]. split; [reflexivity|].
    split; [exact Hnew|]. split; [|contradiction].
    intros _. apply Z.mod_pos_bound. lia.
  - eexists _, _. split; [exact Hget|]. split; [reflexivity|].
    split; [exact Hnew|]. split; [contradiction|reflexivity].
Qed.

End AccumulatorFacts.

(** ** What the scripts print *)

Section OutputFacts.
Context {G : Generator}.
Hypothesis Hrange : in_range G.

Lemma printed_of_run (m : M G unit) (g0 : rng G) (o : outcome unit) (w : world G) :
  run m g0 = (o, w) -> printed m g0 = stdout w.
Proof. intros E. unfold printed. rewrite E. reflexivity. Qed.

Lemma string_operations_lines (g0 : rng G) :
  exists count r,
    printed (script string_operations) g0 =
      [str count; (r +:+ ",")%string; str (strlen (r +:+ ","))].
Proof.
  unfold script.
  destruct (string_main_spec Hrange g0) as (count & r & w & E & Ho).
  exists count, r. rewrite (printed_of_run _ _ _ _ E). exact Ho.
Qed.

Lemma tuple_operations_lines (g0 : rng G) :
  printed (script tuple_operations) g0 =
    ["10000"; "2300000"; "120000"; "110000"; "70000";
     "Total checksum: 2610000"]%string.
Proof.
  unfold script. rewrite (printed_of_run _ _ _ _ (tuple_main_spec g0)). reflexivity.
Qed.

Lemma array_operations_lines (g0 : rng G) :
  exists sum_val arr,
    len arr = 10 /\
    printed (script array_operations) g0 = map str (sum_val :: arr).
Proof.
  unfold script.
  destruct (array_main_spec Hrange g0) as (sum_val & arr & w & E & Hlen & Ho).
  exists sum_val, arr. split; [exact Hlen|].
  rewrite (printed_of_run _ _ _ _ E). exact Ho.
Qed.

Lemma integer_scripts (s : script_name) :
  s <> string_operations -> s <> tuple_operations -> prints_only_integers G s.
Proof.
  intros Hs Ht g0. destruct s; try contradiction; unfold script.
  - destruct (arithmetic_main_spec Hrange g0) as (r & w & E & Ho & _).
    rewrite (printed_of_run _ _ _ _ E), Ho. exact (only_integers_map_str [r]).
  - destruct (array_main_spec Hrange g0) as (sv & arr & w & E & _ & Ho).
    rewrite (printed_of_run _ _ _ _ E), Ho. exact (only_integers_map_str (sv :: arr)).
  - destruct (function_calls_main_spec Hrange g0) as (r & w & E & Ho).
    rewrite (printed_of_run _ _ _ _ E), Ho. exact (only_integers_map_str [r]).
  - destruct (math_main_spec Hrange g0) as (pc & gs & w & E & Ho).
    rewrite (printed_of_run _ _ _ _ E), Ho. exact (only_integers_map_str [pc; gs]).
  - destruct (memory_main_spec Hrange g0) as (r & w & E & Ho).
    rewrite (printed_of_run _ _ _ _ E), Ho. exact (only_integers_map_str [r]).
  - destruct (nested_main_spec g0) as (r & w & E & Ho & _).
    rewrite (printed_of_run _ _ _ _ E), Ho. exact (only_integers_map_str [r]).
  - destruct (option_main_spec Hrange g0) as (sc & nc & w & E & Ho).
    rewrite (printed_of_run _ _ _ _ E), Ho. exact (only_integers_map_str [sc; nc]).
  - destruct (ref_main_spec g0) as (w & E & Ho & _).
    rewrite (printed_of_run _ _ _ _ E), Ho. reflexivity.
  - destruct (result_main_spec Hrange g0) as (ss & ec & w & E & Ho).
    rewrite (printed_of_run _ _ _ _ E), Ho. exact (only_integers_map_str [ss; ec]).
Qed.

Lemma string_operations_not_integers : ~ prints_only_integers G string_operations.
Proof.
  intros H. specialize (H (seed G 42)).
  destruct (string_operations_lines (seed G 42)) as (count & r & E).
  rewrite E in H. unfold only_integers in H. simpl in H.
  rewrite plain_integer_comma, andb_false_r in H. discriminate.
Qed.

Lemma tuple_operations_not_integers : ~ prints_only_integers G tuple_operations.
Proof.
  intros H. specialize (H (seed G 42)).
  rewrite tuple_operations_lines in H. discriminate.
Qed.

Lemma two_exceptions : ~ one_exception G.
Proof.
  intros (s0 & _ & Hothers).
  destruct s0;
    first [ apply string_operations_not_integers, Hothers; discriminate
          | apply tuple_operations_not_integers, Hothers; discriminate ].
Qed.

End OutputFacts.

(** C8, as the code has it: nine scripts print plain integers only;
    two scripts print one more line that is not an integer:
    string_operations prints the accumulated string, which ends with a
    comma, between two integers, and tuple_operations ends with the
    line [Total checksum: 2610000] after five integers.  The container
    that array_operations prints comes out as ten plain integers after
    the sum. *)
Theorem output_lines_as_coded (G : Generator) (Hrange : in_range G) :
  (forall s, s <> string_operations -> s <> tuple_operations ->
     prints_only_integers G s) /\
  ~ prints_only_integers G string_operations /\
  ~ prints_only_integers G tuple_operations /\
  (forall g0 : rng G,
     exists count r,
       printed (script string_operations) g0 =
         [str count; (r +:+ ",")%string; str (strlen (r +:+ ","))] /\
       plain_integer (r +:+ ",") = false) /\
  (forall g0 : rng G,
     printed (script tuple_operations) g0 =
       ["10000"; "2300000"; "120000"; "110000"; "70000";
        "Total checksum: 2610000"]%string) /\
  plain_integer "Total checksum: 2610000" = false /\
  (forall g0 : rng G,
     exists sum_val arr,
       len arr = 10 /\
       printed (script array_operations) g0 = map str (sum_val :: arr)).
Proof.
  split; [exact (integer_scripts Hrange)|].
  split; [exact (string_operations_not_integers Hrange)|].
  split; [exact tuple_operations_not_integers|].
  split.
  { intros g0. destruct (string_operations_lines Hrange g0) as (count & r & E).
    exists count, r. split; [exact E|apply plain_integer_comma]. }
  split; [exact tuple_operations_lines|].
  split; [reflexivity|].
  exact (array_operations_lines Hrange).
Qed.

Lemma output_lines_as_coded_witness :
  in_range Lcg.generator /\
  ~ prints_only_integers Lcg.generator string_operations /\
  ~ prints_only_integers Lcg.generator tuple_operations.
Proof.
  split; [exact Lcg_in_range|].
  destruct (output_lines_as_coded Lcg.generator Lcg_in_range) as (_ & H1 & H2 & _).
  split; assumption.
Defined.

(** C8 as stated fails: the scripts that print something other than
    plain integers are two, not one. *)
Lemma one_exception_counterexample : ~ one_exception Lcg.generator.
Proof. exact (two_exceptions Lcg_in_range). Qed.

(** ** Reproducibility *)

Section Reproducibility.
Context {G : Generator}.

(** A script that seeds first runs the same from every initial state
    of the generator. *)
Lemma seeded_runs_agree (s : script_name) (g0 g0' : rng G) :
  seeds_generator s = true -> run (script s) g0 = run (script s) g0'.
Proof.
  intros Hs. destruct s; try discriminate; unfold script.
  - unfold ArithmeticOperations.main. rewrite !run_seed_first. reflexivity.
  - unfold ArrayOperations.main. rewrite !run_seed_first. reflexivity.
  - unfold FunctionCallsScript.main. rewrite !run_seed_first. reflexivity.
  - unfold MathIntensiveScript.main. rewrite !run_seed_first. reflexivity.
  - unfold MemoryAllocation.main. rewrite !run_seed_first. reflexivity.
  - unfold OptionOperations.main. rewrite !run_seed_first. reflexivity.
  - unfold RefOperations.main. rewrite !run_seed_first. reflexivity.
  - unfold ResultOperationsScript.main. rewrite !run_seed_first. reflexivity.
Qed.

Lemma nested_loops_lines (g0 : rng G) :
  run NestedLoops.main g0 =
    (Ret tt, {| gen := g0; stdout := ["625000"%string]; heap := [] |}).
Proof. vm_compute. reflexivity. Qed.

(** Ten of the eleven scripts print the same lines on every run. *)
Lemma reproducible_scripts (s : script_name) (g0 g0' : rng G) :
  s <> string_operations ->
  printed (script s) g0 = printed (script s) g0'.
Proof.
  intros Hs. destruct (seeds_generator s) eqn:Hseed.
  - unfold printed. rewrite (seeded_runs_agree s g0 g0' Hseed). reflexivity.
  - destruct s; try discriminate; try contradiction; unfold script.
    + rewrite (printed_of_run _ _ _ _ (nested_loops_lines g0)).
      rewrite (printed_of_run _ _ _ _ (nested_loops_lines g0')). reflexivity.
    + rewrite (printed_of_run _ _ _ _ (tuple_main_spec g0)).
      rewrite (printed_of_run _ _ _ _ (tuple_main_spec g0')). reflexivity.
Qed.

(** string_operations starts drawing in the state it was started in. *)
Lemma string_operations_unseeded (g0 : rng G) :
  run StringOperations.main g0 =
    StringOperations.main {| gen := g0; stdout := []; heap := [] |}.
Proof. reflexivity. Qed.

End Reproducibility.

(** C1 at string_operations: the script draws without having seeded,
    so two runs that find the generator in different states print
    different lines; here the second line starts with 0 in one run and
    with 8 in the other. *)
Theorem string_operations_not_reproducible :
  seeds_generator string_operations = false /\
  second_line_head (printed (G := Lcg.generator) (script string_operations) 0)
    = Some "0"%char /\
  second_line_head (printed (G := Lcg.generator) (script string_operations) 1)
    = Some "8"%char /\
  printed (G := Lcg.generator) (script string_operations) 0 <>
  printed (G := Lcg.generator) (script string_operations) 1.
Proof.
  assert (H0 : second_line_head
                 (printed (G := Lcg.generator) (script string_operations) 0)
               = Some "0"%char) by (vm_compute; reflexivity).
  assert (H1 : second_line_head
                 (printed (G := Lcg.generator) (script string_operations) 1)
               = Some "8"%char) by (vm_compute; reflexivity).
  split; [reflexivity|]. split; [exact H0|]. split; [exact H1|].
  intros E. rewrite E, H1 in H0. clear E H1. discriminate H0.
Qed.

(** * Further properties of the helpers *)

(** ** function_calls.py: [array_sum] *)

Section ArraySumFacts.
Context {G : Generator}.
Import FunctionCallsScript.

Lemma sum_Z_snoc (l : list Z) (x : Z) : sum_Z (l ++ [x]) = sum_Z l + x.
Proof.
  unfold sum_Z. induction l as [|y l IH]; simpl; [lia|]. rewrite IH. lia.
Qed.

(** X1: [array_sum] returns the sum of the elements of any list, the
    empty one included, without raising and without touching the
    generator, the output or the heap. *)
Theorem array_sum_correct (arr : list Z) (w : world G) :
  array_sum arr w = (Ret (sum_Z arr), w).
Proof.
  unfold array_sum.
  destruct (range_loop_inv
              (fun i s w' => w' = w /\ s = sum_Z (take (Z.to_nat i) arr))
              (fun i sum_val => x ← lift (py_index arr i); mret (sum_val + x))
              0 (len arr) 0 w)
    as (s & w' & Hl & -> & Hs).
  - unfold len. lia.
  - split; reflexivity.
  - intros i s w1 Hi [-> ->].
    destruct (py_index_in_bounds arr i ltac:(lia)) as [x [Hget Hlook]].
    rewrite Hget, bind_lift_Ret.
    eexists _, w. split; [reflexivity|]. split; [reflexivity|].
    replace (Z.to_nat (i + 1)) with (Datatypes.S (Z.to_nat i)) by lia.
    rewrite (take_S_r _ _ _ Hlook), sum_Z_snoc. reflexivity.
  - rewrite Hl. do 2 f_equal. rewrite Hs.
    unfold len. rewrite Nat2Z.id, firstn_all. reflexivity.
Qed.

End ArraySumFacts.

(** ** function_calls.py: the values of [fibonacci] *)

Section FibonacciValues.
Import FunctionCalls.

(** X2: what [fibonacci] returns is the argument itself up to 1 (so a
    negative argument comes back unchanged), and otherwise a number from
    0 to 1999998: the two remainders keep the sum below 2000000. *)
Theorem fibonacci_bounds (n : Z) :
  exists v, fibonacci n = Ret v /\
    (n <= 1 -> v = n) /\ (1 < n -> 0 <= v <= 1999998).
Proof.
  destruct (Z_le_dec n 1) as [Hlow|Hlow].
  { exists n. rewrite fibonacci_low by assumption.
    split; [reflexivity|]. split; [reflexivity|lia]. }
  destruct (Z_gt_dec n 46) as [Hhigh|Hhigh].
  { exists 0. rewrite fibonacci_high by assumption.
    split; [reflexivity|]. split; lia. }
  destruct (fibonacci_total (n - 1)) as [v1 H1].
  destruct (fibonacci_total (n - 2)) as [v2 H2].
  exists (v1 mod 1000000 + v2 mod 1000000).
  rewrite fibonacci_rec by lia. rewrite H1, H2.
  split; [reflexivity|]. split; [lia|]. intros _.
  pose proof (Z.mod_pos_bound v1 1000000). pose proof (Z.mod_pos_bound v2 1000000).
  lia.
Qed.

Lemma Fib_step (n : nat) : Fib (Datatypes.S (Datatypes.S n)) = Fib n + Fib (Datatypes.S n).
Proof. unfold Fib. simpl. destruct (fib_pair n) as [a b]. reflexivity. Qed.

Lemma Fib_small (k : nat) : (k <= 30)%nat -> 0 <= Fib k < 1000000.
Proof.
  intros Hk.
  assert (Hall : forallb (fun k => (0 <=? Fib k) && (Fib k <? 1000000)) (seq 0 31) = true)
    by (vm_compute; reflexivity).
  rewrite forallb_forall in Hall.
  specialize (Hall k). rewrite in_seq in Hall. specialize (Hall ltac:(lia)).
  apply andb_prop in Hall. destruct Hall as [H0 H1].
  apply Z.leb_le in H0. apply Z.ltb_lt in H1. lia.
Qed.

Lemma fibonacci_Fib (n : nat) : (n <= 31)%nat -> fibonacci (Z.of_nat n) = Ret (Fib n).
Proof.
  induction n as [n IH] using lt_wf_ind. intros Hn.
  destruct n as [|[|k]].
  - rewrite fibonacci_low by lia. reflexivity.
  - rewrite fibonacci_low by lia. reflexivity.
  - rewrite fibonacci_rec by lia.
    replace (Z.of_nat (Datatypes.S (Datatypes.S k)) - 1) with (Z.of_nat (Datatypes.S k)) by lia.
    replace (Z.of_nat (Datatypes.S (Datatypes.S k)) - 2) with (Z.of_nat k) by lia.
    rewrite (IH (Datatypes.S k)), (IH k) by lia.
    rewrite !obind_Ret.
    rewrite (py_mod_nonzero (Fib (Datatypes.S k)) 1000000), obind_Ret by lia.
    rewrite (py_mod_nonzero (Fib k) 1000000), obind_Ret by lia.
    pose proof (Fib_small k ltac:(lia)). pose proof (Fib_small (Datatypes.S k) ltac:(lia)).
    rewrite !Z.mod_small by lia.
    rewrite Fib_step. f_equal. lia.
Qed.

(** X3: up to 31 [fibonacci] returns the Fibonacci number itself, the
    remainders changing nothing; 32 is the first argument where it does
    not.  The script calls it on [a % 10] only. *)
Theorem fibonacci_exact (n : Z) :
  0 <= n <= 31 ->
  fibonacci n = Ret (Fib (Z.to_nat n)) /\
  fibonacci 32 <> Ret (Fib 32).
Proof.
  intros Hn. split.
  - rewrite <- (Z2Nat.id n) at 1 by lia. apply fibonacci_Fib. lia.
  - rewrite fibonacci_rec by lia.
    change (32 - 1) with (Z.of_nat 31). change (32 - 2) with (Z.of_nat 30).
    rewrite (fibonacci_Fib 31), (fibonacci_Fib 30) by lia.
    vm_compute. discriminate.
Qed.

Lemma fibonacci_exact_witness :
  fibonacci 9 = Ret (Fib (Z.to_nat 9)) /\ fibonacci 32 <> Ret (Fib 32).
Proof. apply (fibonacci_exact 9). lia. Defined.

End FibonacciValues.

(** ** math_intensive.py: [gcd] on all integers *)

Section GcdSigns.
Import MathIntensive.

(** X4: on any two integers, negative ones included, [gcd] returns a
    number whose absolute value is the greatest common divisor; it is
    the first argument itself when the second is zero, so its sign is
    not always positive. *)
Theorem gcd_any_sign (a b : Z) :
  exists r, gcd a b = Ret r /\ Z.abs r = Z.gcd a b.
Proof.
  remember (Z.abs_nat b) as m eqn:Hm.
  revert a b Hm. induction m as [m IH] using lt_wf_ind. intros a b ->.
  destruct (Z.eq_dec b 0) as [->|Hb].
  - exists a. rewrite gcd_zero. split; [reflexivity|].
    rewrite Z.gcd_0_r. reflexivity.
  - rewrite gcd_step by assumption.
    assert (Hlt : (Z.abs_nat (a mod b) < Z.abs_nat b)%nat).
    { pose proof (Z.mod_bound_or a b Hb). lia. }
    destruct (IH _ Hlt b (a mod b) eq_refl) as (r & Hr & Habs).
    exists r. split; [exact Hr|].
    rewrite Habs, Z.gcd_comm, Z.gcd_mod by assumption. apply Z.gcd_comm.
Qed.

Example gcd_negative : gcd 5 (-3) = Ret (-1).
Proof. reflexivity. Qed.

End GcdSigns.

(** ** math_intensive.py: the count of primes *)

Section PrimeCount.
Context {G : Generator}.
Hypothesis Hrange : in_range G.
Import MathIntensive MathIntensiveScript.

Lemma trial_prime_spec (n : Z) : trial_prime n = true <-> Z.prime n.
Proof.
  unfold trial_prime. rewrite is_prime_correct.
  destruct (Zprime_dec n) as [Hp|Hnp]; simpl; split; intros H;
    first [assumption | reflexivity | discriminate | contradiction].
Qed.

Lemma math_body_count (i : Z) (prime_count gcd_sum : Z) (w : world G) :
  exists gcd_sum' w',
    body i (prime_count, gcd_sum) w =
      (Ret (if trial_prime i then prime_count + 1 else prime_count, gcd_sum'), w') /\
    stdout w' = stdout w.
Proof.
  destruct (math_body_spec Hrange i (prime_count, gcd_sum) w)
    as (a & b & w' & _ & _ & E & Ho).
  exists (gcd_sum + Z.gcd a b + (i * i + a * b) mod 1000), w'.
  split; [|exact Ho]. rewrite E. simpl.
  unfold trial_prime. rewrite is_prime_correct.
  destruct (Zprime_dec i); reflexivity.
Qed.

Lemma math_loop_count (n : nat) (w : world G) :
  exists gcd_sum w',
    range_loop 1 (Z.of_nat n + 1) body (0, 0) w = (Ret (count_primes n, gcd_sum), w') /\
    stdout w' = stdout w.
Proof.
  destruct (range_loop_inv
              (fun i (s : Z * Z) w' =>
                 fst s = count_primes (Z.to_nat (i - 1)) /\ stdout w' = stdout w)
              body 1 (Z.of_nat n + 1) (0, 0) w)
    as ([pc gs] & w' & Hl & Hpc & Ho).
  - lia.
  - split; reflexivity.
  - intros i [pc gs] w1 Hi [Hpc Ho]. simpl in Hpc.
    destruct (math_body_count i pc gs w1) as (gs' & w2 & E & Ho').
    eexists _, w2. split; [exact E|]. split; [|congruence]. simpl.
    replace (Z.to_nat (i + 1 - 1)) with (Datatypes.S (Z.to_nat (i - 1))) by lia.
    cbn [count_primes].
    replace (Z.of_nat (Datatypes.S (Z.to_nat (i - 1)))) with i by lia.
    rewrite Hpc. reflexivity.
  - simpl in Hpc. exists gs, w'. split; [|exact Ho].
    rewrite Hl, Hpc.
    replace (Z.to_nat (Z.of_nat n + 1 - 1)) with n by lia. reflexivity.
Qed.

Lemma count_primes_filter (n : nat) :
  count_primes n =
    Z.of_nat (length (filter (fun k => trial_prime (Z.of_nat k) = true) (seq 1 n))).
Proof.
  induction n as [|n IH]; [reflexivity|].
  rewrite seq_S, filter_app, length_app. cbn [count_primes].
  rewrite IH. simpl (1 + n)%nat.
  rewrite filter_cons, filter_nil.
  destruct (decide (trial_prime (Z.of_nat (Datatypes.S n)) = true)) as [E|E].
  - rewrite E. simpl. lia.
  - apply not_true_is_false in E. rewrite E. simpl. lia.
Qed.

Lemma count_primes_4999 : count_primes 4999 = 669.
Proof. vm_compute. reflexivity. Qed.

End PrimeCount.

(** X5: the first line that math_intensive prints is 669 on every
    generator: [prime_count] ends as the number of [i] in 1..4999 on
    which [is_prime] answers 1, and those are the primes below 5000. *)
Theorem math_intensive_prime_count (G : Generator) (Hrange : in_range G) :
  (forall g0 : rng G,
     exists gcd_sum,
       printed (script math_intensive) g0 = ["669"%string; str gcd_sum]) /\
  count_primes 4999 = 669 /\
  count_primes 4999 =
    Z.of_nat (length (filter (fun k => trial_prime (Z.of_nat k) = true) (seq 1 4999))) /\
  (forall n, trial_prime n = true <-> Z.prime n).
Proof.
  split; [|split; [exact count_primes_4999|split; [apply count_primes_filter|exact trial_prime_spec]]].
  intros g0. unfold script, MathIntensiveScript.main, printed.
  rewrite run_seed_first.
  set (w0 := {| gen := seed G 42 |}).
  destruct (math_loop_count Hrange 4999 w0) as (gs & w' & Hl & Ho).
  change (Z.of_nat 4999 + 1) with 5000 in Hl.
  rewrite count_primes_4999 in Hl.
  rewrite (bind_Ret_eq (range_loop 1 5000 MathIntensiveScript.body (0, 0)) _ w0 w' _ Hl).
  exists gs. simpl. rewrite Ho. reflexivity.
Qed.

Lemma math_intensive_prime_count_witness :
  in_range Lcg.generator /\
  exists gcd_sum,
    printed (G := Lcg.generator) (script math_intensive) 7 = ["669"%string; str gcd_sum].
Proof.
  split; [exact Lcg_in_range|].
  destruct (math_intensive_prime_count Lcg.generator Lcg_in_range) as (H & _).
  exact (H 7).
Defined.

(** ** memory_allocation.py *)

Section MemoryAllocationMore.
Context {G : Generator}.
Import MemoryAllocation.

(** X6: [create_array(size)] returns a list of [size] elements whose
    element at every index [k] is [k]; for a size of zero or less it
    returns the empty list.  It never raises and leaves the generator,
    the output and the heap alone. *)
Theorem create_array_contents (size : Z) (w : world G) :
  exists arr,
    create_array size w = (Ret arr, w) /\
    len arr = Z.max 0 size /\
    (forall k, 0 <= k < size -> py_index arr k = Ret k) /\
    (size <= 0 -> arr = []).
Proof.
  unfold create_array.
  destruct (Z_le_dec size 0) as [Hneg|Hpos].
  { exists []. unfold range_loop.
    replace (Z.to_nat (size - 0)) with 0%nat by lia.
    replace (Z.to_nat size) with 0%nat by lia.
    split; [reflexivity|]. split; [unfold len; simpl; lia|].
    split; [intros k Hk; lia|reflexivity]. }
  destruct (range_loop_inv
              (fun i (arr : list Z) w' =>
                 w' = w /\ len arr = size /\
                 forall k : nat, Z.of_nat k < i -> arr !! k = Some (Z.of_nat k))
              (fun i arr => lift (py_setitem arr i i)) 0 size
              (replicate (Z.to_nat size) 0) w ltac:(lia))
    as (arr & w' & Hl & -> & Hlen & Hall).
  - split; [reflexivity|]. split; [|intros k Hk; lia].
    unfold len. rewrite length_replicate. lia.
  - intros i arr w1 Hi (-> & Hlen & Hall).
    rewrite py_setitem_in_bounds by lia.
    eexists _, w. split; [reflexivity|]. split; [reflexivity|].
    split; [rewrite len_insert; exact Hlen|].
    intros k Hk. destruct (decide (k = Z.to_nat i)) as [->|Hne].
    + rewrite list_lookup_insert_eq by (unfold len in Hlen; lia).
      f_equal. lia.
    + rewrite list_lookup_insert_ne by congruence. apply Hall. lia.
  - exists arr. split; [exact Hl|]. split; [lia|]. split; [|lia].
    intros k Hk.
    destruct (py_index_in_bounds arr k ltac:(lia)) as (x & Hget & Hlook).
    rewrite Hget. f_equal.
    rewrite (Hall (Z.to_nat k) ltac:(lia)) in Hlook.
    injection Hlook as <-. lia.
Qed.

Hypothesis Hrange : in_range G.

Lemma memory_loop_bounds (n : Z) (w : world G) :
  0 <= n ->
  exists total_length w',
    range_loop 0 n body 0 w = (Ret total_length, w') /\
    stdout w' = stdout w /\ 20 * n <= total_length <= 60 * n.
Proof.
  intros Hn.
  destruct (range_loop_inv
              (fun i t w' => stdout w' = stdout w /\ 20 * i <= t <= 60 * i)
              body 0 n 0 w Hn)
    as (t & w' & Hl & Ho & Hb).
  - split; [reflexivity|lia].
  - intros i t w1 _ [Ho Hb].
    destruct (memory_body_spec Hrange i t w1) as (sz & w2 & Hsz & E & Ho').
    eexists _, w2. split; [exact E|]. split; [congruence|lia].
  - exists t, w'. auto.
Qed.

End MemoryAllocationMore.

(** X7: every iteration of memory_allocation adds the size drawn plus
    10 (the second list always has 5 + 5 elements), so the one number
    the script prints lies between 20000 and 60000. *)
Theorem memory_allocation_total (G : Generator) (Hrange : in_range G) :
  (forall (i total_length : Z) (w : world G),
     exists size w',
       10 <= size <= 50 /\
       MemoryAllocation.body i total_length w = (Ret (total_length + size + 10), w')) /\
  (forall g0 : rng G,
     exists total_length,
       printed (script memory_allocation) g0 = [str total_length] /\
       20000 <= total_length <= 60000).
Proof.
  split.
  - intros i t w.
    destruct (memory_body_spec Hrange i t w) as (sz & w' & Hsz & E & _).
    exists sz, w'. auto.
  - intros g0. unfold script, MemoryAllocation.main, printed.
    rewrite run_seed_first.
    set (w0 := {| gen := seed G 42 |}).
    destruct (memory_loop_bounds Hrange 1000 w0 ltac:(lia)) as (t & w' & Hl & Ho & Hb).
    rewrite (bind_Ret_eq (range_loop 0 1000 MemoryAllocation.body 0) _ w0 w' _ Hl).
    exists t. split; [|lia]. simpl. rewrite Ho. reflexivity.
Qed.

Lemma memory_allocation_total_witness :
  in_range Lcg.generator /\
  exists total_length,
    printed (G := Lcg.generator) (script memory_allocation) 7 = [str total_length] /\
    20000 <= total_length <= 60000.
Proof.
  split; [exact Lcg_in_range|].
  destruct (memory_allocation_total Lcg.generator Lcg_in_range) as (_ & H).
  exact (H 7).
Defined.

(** ** option_operations.py and result_operations.py: the two counters *)

Section CounterBounds.
Context {G : Generator}.
Hypothesis Hrange : in_range G.

Lemma option_loop_bounds (n : Z) (w : world G) :
  0 <= n ->
  exists success_count none_count w',
    range_loop 0 n OptionOperations.body (0, 0) w =
      (Ret (success_count, none_count), w') /\
    stdout w' = stdout w /\
    0 <= none_count <= n /\
    51 * (n - none_count) <= success_count <= 100 * (n - none_count).
Proof.
  intros Hn.
  destruct (range_loop_inv
              (fun i (s : Z * Z) w' =>
                 stdout w' = stdout w /\ 0 <= snd s <= i /\
                 51 * (i - snd s) <= fst s <= 100 * (i - snd s))
              OptionOperations.body 0 n (0, 0) w Hn)
    as ([sc nc] & w' & Hl & Ho & Hb).
  - simpl. split; [reflexivity|lia].
  - intros i [sc nc] w1 _ (Ho & Hb). simpl in Hb.
    unfold OptionOperations.body.
    draw Hrange val Hval w2.
    destruct (Z.gtb_spec val 50).
    + eexists _, w2. split; [reflexivity|]. split; [congruence|]. simpl. lia.
    + eexists _, w2. split; [reflexivity|]. split; [congruence|]. simpl. lia.
  - simpl in Hb. exists sc, nc, w'. split; [exact Hl|]. split; [exact Ho|]. lia.
Qed.

Lemma result_loop_bounds (n : Z) (w : world G) :
  0 <= n ->
  exists success_sum error_count w',
    range_loop 0 n ResultOperationsScript.body (0, 0) w =
      (Ret (success_sum, error_count), w') /\
    stdout w' = stdout w /\
    0 <= error_count <= n /\
    0 <= success_sum <= 100 * (n - error_count).
Proof.
  intros Hn.
  destruct (range_loop_inv
              (fun i (s : Z * Z) w' =>
                 stdout w' = stdout w /\ 0 <= snd s <= i /\
                 0 <= fst s <= 100 * (i - snd s))
              ResultOperationsScript.body 0 n (0, 0) w Hn)
    as ([ss ec] & w' & Hl & Ho & Hb).
  - simpl. split; [reflexivity|lia].
  - intros i [ss ec] w1 _ (Ho & Hb). simpl in Hb.
    unfold ResultOperationsScript.body.
    draw Hrange a Ha w2. draw Hrange b Hb' w3.
    destruct (Z.eq_dec b 0) as [->|Hnz].
    + rewrite consume_zero.
      eexists _, w3. split; [reflexivity|]. split; [congruence|]. simpl. lia.
    + rewrite consume_nonzero by assumption.
      eexists _, w3. split; [reflexivity|]. split; [congruence|]. simpl.
      assert (0 <= a / b) by (apply Z.div_pos; lia).
      assert (a / b <= 100).
      { apply Z.div_le_upper_bound; [lia|]. nia. }
      lia.
  - simpl in Hb. exists ss, ec, w'. split; [exact Hl|]. split; [exact Ho|]. lia.
Qed.

End CounterBounds.

(** X8: option_operations prints two numbers: [none_count], the number
    of draws that were at most 50, and [success_count], the sum of the
    other draws, each from 51 to 100; so with 50000 draws
    [51 * (50000 - none_count) <= success_count <= 100 * (50000 - none_count)]. *)
Theorem option_operations_counts (G : Generator) (Hrange : in_range G) (g0 : rng G) :
  exists success_count none_count,
    printed (script option_operations) g0 = [str success_count; str none_count] /\
    0 <= none_count <= 50000 /\
    51 * (50000 - none_count) <= success_count <= 100 * (50000 - none_count).
Proof.
  unfold script, OptionOperations.main, printed. rewrite run_seed_first.
  set (w0 := {| gen := seed G 42 |}).
  destruct (option_loop_bounds Hrange 50000 w0 ltac:(lia))
    as (sc & nc & w' & Hl & Ho & Hb1 & Hb2).
  rewrite (bind_Ret_eq (range_loop 0 50000 OptionOperations.body (0, 0)) _ w0 w' _ Hl).
  exists sc, nc. split; [|split; assumption]. simpl. rewrite Ho. reflexivity.
Qed.

Lemma option_operations_counts_witness :
  in_range Lcg.generator /\
  exists success_count none_count,
    printed (G := Lcg.generator) (script option_operations) 7 =
      [str success_count; str none_count] /\
    0 <= none_count <= 50000 /\
    51 * (50000 - none_count) <= success_count <= 100 * (50000 - none_count).
Proof.
  split; [exact Lcg_in_range|].
  exact (option_operations_counts Lcg.generator Lcg_in_range 7).
Defined.

(** X9: result_operations prints [success_sum] and [error_count]; the
    second counts the iterations whose divisor was zero, the first adds
    a quotient from 0 to 100 for each of the others; so
    [0 <= success_sum <= 100 * (50000 - error_count)]. *)
Theorem result_operations_counts (G : Generator) (Hrange : in_range G) (g0 : rng G) :
  exists success_sum error_count,
    printed (script result_operations) g0 = [str success_sum; str error_count] /\
    0 <= error_count <= 50000 /\
    0 <= success_sum <= 100 * (50000 - error_count).
Proof.
  unfold script, ResultOperationsScript.main, printed. rewrite run_seed_first.
  set (w0 := {| gen := seed G 42 |}).
  destruct (result_loop_bounds Hrange 50000 w0 ltac:(lia))
    as (ss & ec & w' & Hl & Ho & Hb1 & Hb2).
  rewrite (bind_Ret_eq (range_loop 0 50000 ResultOperationsScript.body (0, 0)) _ w0 w' _ Hl).
  exists ss, ec. split; [|split; assumption]. simpl. rewrite Ho. reflexivity.
Qed.

Lemma result_operations_counts_witness :
  in_range Lcg.generator /\
  exists success_sum error_count,
    printed (G := Lcg.generator) (script result_operations) 7 =
      [str success_sum; str error_count] /\
    0 <= error_count <= 50000 /\
    0 <= success_sum <= 100 * (50000 - error_count).
Proof.
  split; [exact Lcg_in_range|].
  exact (result_operations_counts Lcg.generator Lcg_in_range 7).
Defined.

(** ** string_operations.py: the two lengths *)

Section StringLengths.
Context {G : Generator}.
Hypothesis Hrange : in_range G.

Lemma strlen_append (s1 s2 : string) : strlen (s1 +:+ s2) = strlen s1 + strlen s2.
Proof.
  unfold strlen. induction s1 as [|c s1 IH]; [reflexivity|].
  change (String c s1 +:+ s2)%string with (String c (s1 +:+ s2)).
  cbn [String.length]. lia.
Qed.

Lemma strlen_digit (num : Z) : 0 <= num <= 9 -> strlen (str num) = 1.
Proof.
  intros Hn.
  assert (num = 0 \/ num = 1 \/ num = 2 \/ num = 3 \/ num = 4 \/
          num = 5 \/ num = 6 \/ num = 7 \/ num = 8 \/ num = 9) as Hc by lia.
  repeat (destruct Hc as [->|Hc]; [reflexivity|]). subst num. reflexivity.
Qed.

Lemma string_loop_lengths (n : Z) (w : world G) :
  0 <= n ->
  exists res count w',
    range_loop 0 n StringOperations.body (EmptyString, 0) w = (Ret (res, count), w') /\
    stdout w' = stdout w /\ strlen res = 2 * n /\ count = n * (n + 1).
Proof.
  intros Hn.
  destruct (range_loop_inv
              (fun i (s : string * Z) w' =>
                 stdout w' = stdout w /\ strlen (fst s) = 2 * i /\ snd s = i * (i + 1))
              StringOperations.body 0 n (EmptyString, 0) w Hn)
    as ([res count] & w' & Hl & Ho & Hlen & Hcount).
  - split; [reflexivity|]. split; reflexivity.
  - intros i [res count] w1 _ (Ho & Hlen & Hcount). simpl in Hlen, Hcount.
    destruct (string_body_spec Hrange i (res, count) w1) as (num & w2 & Hnum & E & Ho').
    eexists _, w2. split; [exact E|]. split; [congruence|].
    cbn [fst snd].
    assert (Hl2 : strlen ((res +:+ str num) +:+ ",") = 2 * (i + 1)).
    { rewrite !strlen_append, strlen_digit by assumption.
      change (strlen ",") with 1. lia. }
    split; [exact Hl2|]. rewrite Hl2. lia.
  - exists res, count, w'. auto.
Qed.

End StringLengths.

(** X10: of the three lines that string_operations prints, the first
    and the third do not depend on the draws: every draw is one digit,
    so the string grows by two characters per iteration, its final
    length is 10000 and the sum of the lengths is 25005000. *)
Theorem string_operations_lengths (G : Generator) (Hrange : in_range G) (g0 : rng G) :
  exists res,
    printed (script string_operations) g0 = ["25005000"%string; res; "10000"%string] /\
    strlen res = 10000.
Proof.
  unfold script, StringOperations.main, printed, run.
  set (w0 := {| gen := g0 |}).
  destruct (string_loop_lengths Hrange 5000 w0 ltac:(lia))
    as (res & count & w' & Hl & Ho & Hlen & Hcount).
  rewrite (bind_Ret_eq (range_loop 0 5000 StringOperations.body (EmptyString, 0)) _ w0 w' _ Hl).
  exists res. split; [|exact Hlen].
  simpl. rewrite Ho, Hlen, Hcount. reflexivity.
Qed.

Lemma string_operations_lengths_witness :
  in_range Lcg.generator /\
  exists res,
    printed (G := Lcg.generator) (script string_operations) 7 =
      ["25005000"%string; res; "10000"%string] /\
    strlen res = 10000.
Proof.
  split; [exact Lcg_in_range|].
  exact (string_operations_lengths Lcg.generator Lcg_in_range 7).
Defined.

(** ** array_operations.py: the range of the values *)

Section ArrayRanges.
Context {G : Generator}.
Hypothesis Hrange : in_range G.

Lemma py_index_lookup {A : Type} (l : list A) (i : Z) (x : A) :
  py_index l i = Ret x -> exists k : nat, l !! k = Some x.
Proof.
  unfold py_index.
  destruct ((0 <=? (if i <? 0 then i + Z.of_nat (length l) else i)) &&
            ((if i <? 0 then i + Z.of_nat (length l) else i) <? Z.of_nat (length l)));
    [|discriminate].
  destruct (l !! Z.to_nat (if i <? 0 then i + Z.of_nat (length l) else i)) eqn:E;
    [|discriminate].
  intros H. injection H as <-. eexists. exact E.
Qed.

Lemma array_loop_ranges (n : Z) (w : world G) :
  0 <= n ->
  exists arr sum_val w',
    range_loop 0 n ArrayOperations.body ([0; 1; 2; 3; 4; 5; 6; 7; 8; 9], 0) w =
      (Ret (arr, sum_val), w') /\
    stdout w' = stdout w /\ len arr = 10 /\ Forall small arr /\
    0 <= sum_val < 100000 * (1 + (n - 1) mod 1000).
Proof.
  intros Hn.
  destruct (range_loop_inv
              (fun i (s : list Z * Z) w' =>
                 stdout w' = stdout w /\ len (fst s) = 10 /\ Forall small (fst s) /\
                 0 <= snd s < 100000 * (1 + (i - 1) mod 1000))
              ArrayOperations.body 0 n ([0; 1; 2; 3; 4; 5; 6; 7; 8; 9], 0) w Hn)
    as ([arr sum_val] & w' & Hl & Ho & Hlen & Hall & Hsum).
  - split; [reflexivity|]. split; [reflexivity|]. split.
    + repeat constructor; unfold small; lia.
    + cbn [snd]. change ((0 - 1) mod 1000) with 999. lia.
  - intros i [arr sum_val] w1 Hi (Ho & Hlen & Hall & Hsum). simpl in Hlen, Hall, Hsum.
    destruct (array_body_bounds Hrange i arr sum_val w1 Hlen)
      as (idx & arr_val & new_val & sum' & w2 & Hget & E & Hnew & Hz & Hnz).
    destruct (array_body_spec Hrange i arr sum_val w1 Hlen)
      as (idx2 & av2 & nv2 & s2 & w3 & _ & _ & _ & E2 & Hlen2 & Ho2).
    rewrite E in E2. injection E2 as Earr _ Ew. subst w3.
    eexists _, w2. split; [exact E|]. cbn [fst snd].
    split; [congruence|]. split; [rewrite Earr; exact Hlen2|].
    split; [apply Forall_insert; [exact Hall|exact Hnew]|].
    destruct (py_index_lookup arr idx arr_val Hget) as [k Hk].
    pose proof (Forall_lookup_1 _ _ _ _ Hall Hk) as Hav. unfold small in Hav.
    replace (i + 1 - 1) with i by lia.
    destruct (Z.eq_dec (i mod 1000) 0) as [Hi0|Hi0].
    + specialize (Hz Hi0). rewrite Hi0. lia.
    + rewrite (Hnz Hi0).
      assert (i mod 1000 = (i - 1) mod 1000 + 1).
      { clear -Hi0. Z.div_mod_to_equations. lia. }
      lia.
  - exists arr, sum_val, w'. auto.
Qed.

End ArrayRanges.

(** X11: in array_operations every element of the list stays in
    0..99999 and [sum_val] never goes below 0 nor reaches 100000000
    (it restarts below 100000 every 1000 iterations); all eleven
    numbers printed are in these ranges. *)
Theorem array_operations_ranges (G : Generator) (Hrange : in_range G) (g0 : rng G) :
  exists sum_val arr,
    printed (script array_operations) g0 = map str (sum_val :: arr) /\
    len arr = 10 /\
    0 <= sum_val < 100000000 /\
    Forall (fun x => 0 <= x < 100000) arr.
Proof.
  unfold script, ArrayOperations.main, printed. rewrite run_seed_first.
  set (w0 := {| gen := seed G 42 |}).
  destruct (array_loop_ranges Hrange 50000 w0 ltac:(lia))
    as (arr & sum_val & w1 & Hl & Ho & Hlen & Hall & Hsum).
  rewrite (bind_Ret_eq
             (range_loop 0 50000 ArrayOperations.body ([0; 1; 2; 3; 4; 5; 6; 7; 8; 9], 0))
             _ w0 w1 _ Hl).
  cbv beta iota. rewrite bind_print_int.
  set (w2 := {| gen := gen w1 |}).
  destruct (array_print_spec arr w2) as (w3 & Hp & Ho3).
  rewrite Hp. cbn [snd].
  exists sum_val, arr. split.
  { rewrite Ho3. unfold w2. cbn [stdout]. rewrite Ho. reflexivity. }
  split; [exact Hlen|]. split; [|exact Hall].
  change ((50000 - 1) mod 1000) with 999 in Hsum. lia.
Qed.

Lemma array_operations_ranges_witness :
  in_range Lcg.generator /\
  exists sum_val arr,
    printed (G := Lcg.generator) (script array_operations) 7 = map str (sum_val :: arr) /\
    len arr = 10 /\
    0 <= sum_val < 100000000 /\
    Forall (fun x => 0 <= x < 100000) arr.
Proof.
  split; [exact Lcg_in_range|].
  exact (array_operations_ranges Lcg.generator Lcg_in_range 7).
Defined.

(** ** arithmetic_operations.py: the size of the result *)

Section ArithmeticBounds.
Context {G : Generator}.
Hypothesis Hrange : in_range G.

Lemma arithmetic_body_exact (i result : Z) (w : world G) :
  exists a b w',
    1 <= a <= 100 /\ 1 <= b <= 100 /\
    ArithmeticOperations.body i result w =
      (Ret (result + (a + b) + (a - b) + a * b + a / (b mod 10 + 1)), w') /\
    stdout w' = stdout w /\
    0 <= a / (b mod 10 + 1) <= 100.
Proof.
  unfold ArithmeticOperations.body.
  draw Hrange a Ha w1. draw Hrange b Hb w2.
  rewrite (py_mod_nonzero b 10), bind_lift_Ret by lia.
  pose proof (divisor_positive b) as Hd.
  rewrite py_floordiv_nonzero, bind_lift_Ret by lia.
  exists a, b, w2. split; [exact Ha|]. split; [exact Hb|].
  split; [reflexivity|]. split; [congruence|].
  split; [apply Z.div_pos; lia|].
  apply Z.div_le_upper_bound; [lia|]. nia.
Qed.

Lemma arithmetic_loop_bounds (n : Z) (w : world G) :
  0 <= n ->
  exists result w',
    range_loop 0 n ArithmeticOperations.body 0 w = (Ret result, w') /\
    stdout w' = stdout w /\ 3 * n <= result <= 10300 * n.
Proof.
  intros Hn.
  destruct (range_loop_inv
              (fun i result w' => stdout w' = stdout w /\ 3 * i <= result <= 10300 * i)
              ArithmeticOperations.body 0 n 0 w Hn) as (r & w' & Hl & Ho & Hb).
  - split; [reflexivity|lia].
  - intros i s w0 _ [Ho Hb].
    destruct (arithmetic_body_exact i s w0) as (a & b & w1 & Ha & Hb' & E & Ho' & Hq).
    eexists _, w1. split; [exact E|]. split; [congruence|]. nia.
  - exists r, w'. auto.
Qed.

End ArithmeticBounds.

(** X13: an iteration of arithmetic_operations adds
    [2 * a + a * b + a // (b % 10 + 1)], which is between 3 and 10300;
    the number the script prints is therefore between 300000 and
    1030000000, below 2^31. *)
Theorem arithmetic_operations_result (G : Generator) (Hrange : in_range G) :
  (forall (i result : Z) (w : world G),
     exists a b w',
       1 <= a <= 100 /\ 1 <= b <= 100 /\
       ArithmeticOperations.body i result w =
         (Ret (result + (2 * a + a * b + a / (b mod 10 + 1))), w') /\
       3 <= 2 * a + a * b + a / (b mod 10 + 1) <= 10300) /\
  (forall g0 : rng G,
     exists result,
       printed (script arithmetic_operations) g0 = [str result] /\
       300000 <= result <= 1030000000 /\ result < 2 ^ 31).
Proof.
  split.
  - intros i result w.
    destruct (arithmetic_body_exact Hrange i result w)
      as (a & b & w' & Ha & Hb & E & _ & Hq).
    exists a, b, w'. split; [exact Ha|]. split; [exact Hb|].
    split; [|nia]. rewrite E. do 2 f_equal. lia.
  - intros g0. unfold script, ArithmeticOperations.main, printed.
    rewrite run_seed_first.
    set (w0 := {| gen := seed G 42 |}).
    destruct (arithmetic_loop_bounds Hrange 100000 w0 ltac:(lia)) as (r & w' & Hl & Ho & Hb).
    rewrite (bind_Ret_eq (range_loop 0 100000 ArithmeticOperations.body 0) _ w0 w' _ Hl).
    exists r. split; [simpl; rewrite Ho; reflexivity|].
    change (2 ^ 31) with 2147483648. lia.
Qed.

Lemma arithmetic_operations_result_witness :
  in_range Lcg.generator /\
  exists result,
    printed (G := Lcg.generator) (script arithmetic_operations) 7 = [str result] /\
    300000 <= result <= 1030000000 /\ result < 2 ^ 31.
Proof.
  split; [exact Lcg_in_range|].
  destruct (arithmetic_operations_result Lcg.generator Lcg_in_range) as (_ & H).
  exact (H 7).
Defined.

(** ** function_calls.py: the size of the result *)

Section FunctionCallsBounds.
Context {G : Generator}.
Hypothesis Hrange : in_range G.
Import FunctionCalls FunctionCallsScript.

Lemma simple_math_range (a b : Z) :
  1 <= a <= 100 -> 1 <= b <= 100 -> 1 <= simple_math a b <= 10000.
Proof. unfold simple_math. intros Ha Hb. nia. Qed.

Lemma Fib_digit (k : nat) : (k <= 9)%nat -> 0 <= Fib k <= 34.
Proof.
  intros Hk.
  assert (Hall : forallb (fun k => (0 <=? Fib k) && (Fib k <=? 34)) (seq 0 10) = true)
    by (vm_compute; reflexivity).
  rewrite forallb_forall in Hall.
  specialize (Hall k). rewrite in_seq in Hall. specialize (Hall ltac:(lia)).
  apply andb_prop in Hall. destruct Hall as [H0 H1].
  apply Z.leb_le in H0. apply Z.leb_le in H1. lia.
Qed.

Lemma function_calls_body_exact (i res : Z) (w : world G) :
  exists a b w',
    1 <= a <= 100 /\ 1 <= b <= 100 /\
    body i res w =
      (Ret (res + simple_math a b + (5 * a + b) mod 10 +
            (if i mod 1000 =? 0 then Fib (Z.to_nat (a mod 10)) else 0)), w') /\
    stdout w' = stdout w.
Proof.
  unfold body.
  draw Hrange a Ha w1. draw Hrange b Hb w2.
  rewrite (bind_Ret_eq _ _ _ _ _ (array_sum_five _ _ _ _ _ w2)).
  rewrite (py_mod_nonzero (0 + a + b + (a + b) + (a - b) + a * 2) 10),
    bind_lift_Ret by lia.
  rewrite (py_mod_nonzero i 1000), bind_lift_Ret by lia.
  replace (0 + a + b + (a + b) + (a - b) + a * 2) with (5 * a + b) by lia.
  exists a, b, w2. split; [exact Ha|]. split; [exact Hb|]. split; [|congruence].
  destruct (i mod 1000 =? 0).
  - rewrite (py_mod_nonzero a 10), bind_lift_Ret by lia.
    pose proof (Z.mod_pos_bound a 10 ltac:(lia)) as Hm.
    rewrite <- (Z2Nat.id (a mod 10)) at 1 by lia.
    rewrite fibonacci_Fib by lia. rewrite bind_lift_Ret. reflexivity.
  - unfold mret. do 2 f_equal. lia.
Qed.

Lemma function_calls_loop_bounds (n : Z) (w : world G) :
  0 <= n ->
  exists res w',
    range_loop 0 n body 0 w = (Ret res, w') /\
    stdout w' = stdout w /\ n <= res <= 10043 * n.
Proof.
  intros Hn.
  destruct (range_loop_inv
              (fun i res w' => stdout w' = stdout w /\ i <= res <= 10043 * i)
              body 0 n 0 w Hn) as (r & w' & Hl & Ho & Hb).
  - split; [reflexivity|lia].
  - intros i s w0 _ [Ho Hb].
    destruct (function_calls_body_exact i s w0) as (a & b & w1 & Ha & Hb' & E & Ho').
    eexists _, w1. split; [exact E|]. split; [congruence|].
    pose proof (simple_math_range a b Ha Hb').
    pose proof (Z.mod_pos_bound (5 * a + b) 10 ltac:(lia)).
    pose proof (Z.mod_pos_bound a 10 ltac:(lia)).
    pose proof (Fib_digit (Z.to_nat (a mod 10)) ltac:(lia)).
    destruct (i mod 1000 =? 0); lia.
  - exists r, w'. auto.
Qed.

End FunctionCallsBounds.

(** X14: an iteration of function_calls adds [simple_math(a, b)], which
    is from 1 to 10000 on the numbers drawn, then the last digit of
    [array_sum], which is that of [5 * a + b], and every thousandth
    time the Fibonacci number of the last digit of [a]; the number
    printed is between 10000 and 100430000. *)
Theorem function_calls_result (G : Generator) (Hrange : in_range G) :
  (forall a b, 1 <= a <= 100 -> 1 <= b <= 100 ->
     1 <= FunctionCalls.simple_math a b <= 10000) /\
  (forall (i res : Z) (w : world G),
     exists a b w',
       1 <= a <= 100 /\ 1 <= b <= 100 /\
       FunctionCallsScript.body i res w =
         (Ret (res + FunctionCalls.simple_math a b + (5 * a + b) mod 10 +
               (if i mod 1000 =? 0 then Fib (Z.to_nat (a mod 10)) else 0)), w')) /\
  (forall g0 : rng G,
     exists res,
       printed (script function_calls) g0 = [str res] /\
       10000 <= res <= 100430000).
Proof.
  split; [exact simple_math_range|]. split.
  - intros i res w.
    destruct (function_calls_body_exact Hrange i res w) as (a & b & w' & Ha & Hb & E & _).
    exists a, b, w'. auto.
  - intros g0. unfold script, FunctionCallsScript.main, printed.
    rewrite run_seed_first.
    set (w0 := {| gen := seed G 42 |}).
    destruct (function_calls_loop_bounds Hrange 10000 w0 ltac:(lia))
      as (r & w' & Hl & Ho & Hb).
    rewrite (bind_Ret_eq (range_loop 0 10000 FunctionCallsScript.body 0) _ w0 w' _ Hl).
    exists r. split; [simpl; rewrite Ho; reflexivity|lia].
Qed.

Lemma function_calls_result_witness :
  in_range Lcg.generator /\
  exists res,
    printed (G := Lcg.generator) (script function_calls) 7 = [str res] /\
    10000 <= res <= 100430000.
Proof.
  split; [exact Lcg_in_range|].
  destruct (function_calls_result Lcg.generator Lcg_in_range) as (_ & _ & H).
  exact (H 7).
Defined.

(** ** math_intensive.py: the size of [gcd_sum] *)

Section GcdSumBounds.
Context {G : Generator}.
Hypothesis Hrange : in_range G.

Lemma gcd_range (a b : Z) : 1 <= a <= 1000 -> 1 <= b <= 1000 -> 1 <= Z.gcd a b <= 1000.
Proof.
  intros Ha Hb. pose proof (Z.gcd_nonneg a b).
  assert (Z.gcd a b <> 0) by (intros H0; apply Z.gcd_eq_0_l in H0; lia).
  assert (Z.gcd a b <= a) by (apply Z.divide_pos_le; [lia|apply Z.gcd_divide_l]).
  lia.
Qed.

Lemma math_loop_bounds (n : Z) (w : world G) :
  1 <= n ->
  exists prime_count gcd_sum w',
    range_loop 1 n MathIntensiveScript.body (0, 0) w = (Ret (prime_count, gcd_sum), w') /\
    stdout w' = stdout w /\ n - 1 <= gcd_sum <= 1999 * (n - 1).
Proof.
  intros Hn.
  destruct (range_loop_inv
              (fun i (s : Z * Z) w' =>
                 stdout w' = stdout w /\ i - 1 <= snd s <= 1999 * (i - 1))
              MathIntensiveScript.body 1 n (0, 0) w Hn)
    as ([pc gs] & w' & Hl & Ho & Hb).
  - split; [reflexivity|]. simpl. lia.
  - intros i [pc gs] w1 _ [Ho Hb]. simpl in Hb.
    destruct (math_body_spec Hrange i (pc, gs) w1) as (a & b & w2 & Ha & Hb' & E & Ho').
    eexists _, w2. split; [exact E|]. split; [congruence|]. cbn [snd].
    pose proof (gcd_range a b Ha Hb').
    pose proof (Z.mod_pos_bound (i * i + a * b) 1000 ltac:(lia)). lia.
  - simpl in Hb. exists pc, gs, w'. auto.
Qed.

End GcdSumBounds.

(** X15: the second number that math_intensive prints, [gcd_sum], gets
    in each of the 4999 iterations a greatest common divisor from 1 to
    1000 and a remainder from 0 to 999; it ends between 4999 and
    9993001. *)
Theorem math_intensive_gcd_sum (G : Generator) (Hrange : in_range G) (g0 : rng G) :
  exists prime_count gcd_sum,
    printed (script math_intensive) g0 = [str prime_count; str gcd_sum] /\
    4999 <= gcd_sum <= 9993001.
Proof.
  unfold script, MathIntensiveScript.main, printed. rewrite run_seed_first.
  set (w0 := {| gen := seed G 42 |}).
  destruct (math_loop_bounds Hrange 5000 w0 ltac:(lia)) as (pc & gs & w' & Hl & Ho & Hb).
  rewrite (bind_Ret_eq (range_loop 1 5000 MathIntensiveScript.body (0, 0)) _ w0 w' _ Hl).
  exists pc, gs. split; [simpl; rewrite Ho; reflexivity|lia].
Qed.

Lemma math_intensive_gcd_sum_witness :
  in_range Lcg.generator /\
  exists prime_count gcd_sum,
    printed (G := Lcg.generator) (script math_intensive) 7 = [str prime_count; str gcd_sum] /\
    4999 <= gcd_sum <= 9993001.
Proof.
  split; [exact Lcg_in_range|].
  exact (math_intensive_gcd_sum Lcg.generator Lcg_in_range 7).
Defined.

(** ** ref_operations.py: two references *)

Section References.
Context {G : Generator}.
Import RefOperations.

Lemma increment_other (c : loc) (v : Z) (w : world G) :
  heap w !! c = Some {| value := v |} ->
  exists w',
    increment c w = (Ret tt, w') /\
    heap w' !! c = Some {| value := v + 1 |} /\
    (forall c', c' <> c -> heap w' !! c' = heap w !! c') /\
    length (heap w') = length (heap w) /\
    gen w' = gen w /\ stdout w' = stdout w.
Proof.
  intros Hc. pose proof (lookup_lt_Some _ _ _ Hc) as Hlt.
  rewrite (increment_spec c v w Hc). eexists. split; [reflexivity|].
  cbn [heap gen stdout].
  split; [apply list_lookup_insert_eq; exact Hlt|].
  split; [|split; [apply length_insert|split; reflexivity]].
  intros c' Hne. apply list_lookup_insert_ne. congruence.
Qed.

(** X12: any number of calls of [increment] on one counter raise that
    counter by that number and leave every other object as it was: a
    second counter is not changed through the first reference, and no
    object is created or lost. *)
Theorem increment_frame (c : loc) (v k : Z) (w : world G) :
  heap w !! c = Some {| value := v |} ->
  0 <= k ->
  exists w',
    range_loop 0 k (fun _ _ => increment c) tt w = (Ret tt, w') /\
    heap w' !! c = Some {| value := v + k |} /\
    (forall c', c' <> c -> heap w' !! c' = heap w !! c') /\
    length (heap w') = length (heap w) /\
    gen w' = gen w /\ stdout w' = stdout w.
Proof.
  intros Hc Hk.
  destruct (range_loop_inv
              (fun i (_ : unit) w' =>
                 heap w' !! c = Some {| value := v + i |} /\
                 (forall c', c' <> c -> heap w' !! c' = heap w !! c') /\
                 length (heap w') = length (heap w) /\
                 gen w' = gen w /\ stdout w' = stdout w)
              (fun _ _ => increment c) 0 k tt w Hk)
    as ([] & w' & Hl & Hinv).
  - rewrite Z.add_0_r. auto.
  - intros i [] w1 _ (Hv & Hfr & Hlen & Hg & Ho).
    destruct (increment_other c (v + i) w1 Hv) as (w2 & E & Hv' & Hfr' & Hlen' & Hg' & Ho').
    exists tt, w2. split; [exact E|].
    split; [rewrite Hv'; do 2 f_equal; lia|].
    split; [intros c' Hne; rewrite (Hfr' c' Hne); apply Hfr; exact Hne|].
    split; [congruence|]. split; congruence.
  - exists w'. split; [exact Hl|exact Hinv].
Qed.

End References.

Lemma increment_frame_witness :
  exists w',
    range_loop 0 3 (fun _ _ => RefOperations.increment 0%nat) tt
      (Build_world Lcg.generator 42 [] [{| value := 5 |}; {| value := 7 |}]) = (Ret tt, w') /\
    heap w' !! 0%nat = Some {| value := 5 + 3 |} /\
    heap w' !! 1%nat = Some {| value := 7 |} /\
    length (heap w') = 2%nat.
Proof.
  destruct (increment_frame 0%nat 5 3
              (Build_world Lcg.generator 42 [] [{| value := 5 |}; {| value := 7 |}])
              eq_refl ltac:(lia))
    as (w' & E & Hv & Hfr & Hlen & _).
  exists w'. split; [exact E|]. split; [exact Hv|].
  split; [exact (Hfr 1%nat ltac:(discriminate))|exact Hlen].
Defined.

(** ** The accumulators over the run *)

Section LoopFacts.
Context {G : Generator}.

(** The loops above are the loops of the [main]s. *)
Lemma main_loops :
  ArithmeticOperations.main (G := G) =
    (random_seed 42;; result ← arithmetic_loop 100000; print_int result) /\
  FunctionCallsScript.main (G := G) =
    (random_seed 42;; res ← function_calls_loop 10000; print_int res) /\
  MemoryAllocation.main (G := G) =
    (random_seed 42;; total_length ← memory_allocation_loop 1000; print_int total_length) /\
  NestedLoops.main (G := G) =
    (sum_val ← nested_loops_loop 1000; print_int sum_val) /\
  RefOperations.main (G := G) =
    (random_seed 42;; total ← ref_operations_loop 10000; print_int total) /\
  MathIntensiveScript.main (G := G) =
    (random_seed 42;; s ← math_intensive_loop 4999;
     let '(prime_count, gcd_sum) := s in print_int prime_count;; print_int gcd_sum) /\
  OptionOperations.main (G := G) =
    (random_seed 42;; s ← option_operations_loop 50000;
     let '(success_count, none_count) := s in
     print_int success_count;; print_int none_count) /\
  ResultOperationsScript.main (G := G) =
    (random_seed 42;; s ← result_operations_loop 50000;
     let '(success_sum, error_count) := s in
     print_int success_sum;; print_int error_count) /\
  StringOperations.main (G := G) =
    (s ← string_operations_loop 5000;
     let '(res, count) := s in
     print_int count;; print_str res;; print_int (strlen res)) /\
  ArrayOperations.main (G := G) =
    (random_seed 42;; s ← array_loop 50000;
     let '(arr, sum_val) := s in
     print_int sum_val;; range_loop 0 (len arr) (ArrayOperations.print_item arr) tt).
Proof. repeat split; reflexivity. Qed.






Hypothesis Hrange : in_range G.








End LoopFacts.





